(** * actasynth-fe: the workflow wizard, its API client and its input check

    A shallow embedding of the TypeScript sources

      - [types/workflow.ts], [types/api.ts]            (modules [Types], [Api])
      - [components/workflow/steps/input-step.tsx]     (module [InputStep])
      - [lib/api.ts] and the query hooks               (modules [Url], [Api])
      - [components/workflow/workflow-wizard.tsx] and
        [components/workflow/steps/processing-step.tsx] (module [Wizard])

    followed by the properties that the specification states of them
    (modules [UrlFacts], [InputFacts], [ApiFacts], [WizardFacts]).  The
    comparison aggregator of the specification has no source; module
    [Aggregator] models it from the specification.

    Conventions.  A JavaScript string is represented by the Rocq [string]
    holding its UTF-8 bytes; on ASCII text a byte is a character and a UTF-16
    code unit.  A number is [NaN], an infinity or a decimal (module [Js]).  A
    JavaScript object used as a dictionary is a [gmap]; [null] and
    [undefined] are [None].
    What the platform provides ([fetch], [URLSearchParams], [JSON], the auth
    collaborator, React Query's mutations) is modelled by its contract; the
    network and the session are inputs ([Api.World]). *)

From Stdlib Require Import String Ascii List ZArith QArith Lia Lqa Bool.
From Stdlib Require Import DecimalString DecimalN DecimalZ.
From stdpp Require Import base option list gmap strings.

Import ListNotations.
Set Warnings "-register-all".
Local Open Scope string_scope.
Local Open Scope list_scope.

(** ** JavaScript values *)

Module Js.

(** [s.length]: the number of UTF-16 code units of [s].  On the UTF-8
    bytes: a continuation byte counts for nothing, the lead byte of a
    four-byte sequence (a character outside the basic plane, hence a
    surrogate pair) for two, every other byte for one. *)
Definition units_of_byte (a : ascii) : nat :=
  let n := nat_of_ascii a in
  if (n <? 128)%nat then 1
  else if (n <? 192)%nat then 0
  else if (n <? 240)%nat then 1
  else 2.

Fixpoint length (s : string) : nat :=
  match s with
  | EmptyString => 0
  | String a s' => units_of_byte a + length s'
  end.

(** Truthiness of a string: [s || d], [if (s)]. *)
Definition truthy (s : string) : bool :=
  match s with EmptyString => false | _ => true end.

(** [o || d] for [o : string | null | undefined]. *)
Definition or_else (o : option string) (d : string) : string :=
  match o with
  | Some s => if truthy s then s else d
  | None => d
  end.

(** [o || undefined]. *)
Definition or_undefined (o : option string) : option string :=
  match o with
  | Some s => if truthy s then Some s else None
  | None => None
  end.

(** [String.prototype.trim], on the ASCII white space and line
    terminators (TAB, LF, VT, FF, CR, SP).  The sources never call it; it is
    here to state what the specification says about trimmed lengths. *)
Definition is_space (a : ascii) : bool :=
  let n := nat_of_ascii a in
  ((9 <=? n)%nat && (n <=? 13)%nat) || (n =? 32)%nat.

Fixpoint trim_start (s : string) : string :=
  match s with
  | String a s' => if is_space a then trim_start s' else s
  | EmptyString => EmptyString
  end.

(** [trim_end] keeps a run of spaces only when something follows it. *)
Fixpoint trim_end (s : string) : string :=
  match s with
  | EmptyString => EmptyString
  | String a s' =>
      match trim_end s' with
      | EmptyString => if is_space a then EmptyString else String a EmptyString
      | t => String a t
      end
  end.

Definition trim (s : string) : string := trim_end (trim_start s).

(** The first occurrence of [c] splits [s]; [None] when there is none. *)
Fixpoint break_on (c : ascii) (s : string) : option (string * string) :=
  match s with
  | EmptyString => None
  | String a s' =>
      if Ascii.eqb a c then Some (EmptyString, s')
      else match break_on c s' with
           | Some (l, r) => Some (String a l, r)
           | None => None
           end
  end.

(** *** Numbers

    A number is [NaN], an infinity, or a finite number.  A finite number is
    represented by a decimal [m * 10^e] that denotes it -- for a double, its
    shortest decimal that reads back as that double, the one that [toString]
    prints -- so that [0.7] is [Decimal 7 (-1)].  One number has many such
    pairs; [same] tells when two representations denote one number.  [-0] is
    not told from [0]. *)
Inductive number :=
| NaN
| Infinity (negative : bool)
| Decimal (m e : Z).

(** [m * 10^e = m' * 10^e'], both sides scaled by the smaller power. *)
Definition same (a b : number) : Prop :=
  match a, b with
  | NaN, NaN => True
  | Infinity x, Infinity y => x = y
  | Decimal m e, Decimal m' e' =>
      (m * 10 ^ (e - Z.min e e') = m' * 10 ^ (e' - Z.min e e'))%Z
  | _, _ => False
  end.

(** The decimal digits of [n], without leading zeros; ["0"] for 0. *)
Definition string_of_N (n : N) : string :=
  NilEmpty.string_of_uint (N.to_uint n).

Fixpoint zeros (n : nat) : string :=
  match n with
  | O => EmptyString
  | S n' => String "0" (zeros n')
  end.

(** [s] without the zeros at its end. *)
Fixpoint strip_zeros (s : string) : string :=
  match s with
  | EmptyString => EmptyString
  | String a s' =>
      match strip_zeros s' with
      | EmptyString => if Ascii.eqb a "0" then EmptyString else String a EmptyString
      | t => String a t
      end
  end.

Fixpoint take (n : nat) (s : string) : string :=
  match n, s with
  | S n', String a s' => String a (take n' s')
  | _, _ => EmptyString
  end.

Fixpoint drop (n : nat) (s : string) : string :=
  match n, s with
  | S n', String _ s' => drop n' s'
  | _, _ => s
  end.

(** The exponent part of a numeral: [e], a sign, and the digits. *)
Definition exponent_text (x : Z) : string :=
  String "e" (String (if (x <? 0)%Z then "-" else "+")%char
                     (string_of_N (Z.abs_N x))).

(** [Number::toString] of ECMAScript for a positive number whose shortest
    decimal has the digits [digits], [k] of them, and the value
    [0.digits * 10^n]: the digits followed by zeros when [k <= n <= 21], a
    point inside the digits when [0 < n <= 21], [0.] and zeros before the
    digits when [-6 < n <= 0], and otherwise the exponent form of [n - 1]. *)
Definition decimal_text (digits : string) (n : Z) : string :=
  let k := Z.of_nat (String.length digits) in
  if ((k <=? n) && (n <=? 21))%Z
  then digits +:+ zeros (Z.to_nat (n - k))
  else if ((0 <? n) && (n <=? 21))%Z
  then take (Z.to_nat n) digits +:+ String "." (drop (Z.to_nat n) digits)
  else if ((-6 <? n) && (n <=? 0))%Z
  then String "0" (String "." (zeros (Z.to_nat (- n)) +:+ digits))
  else
    (if (k =? 1)%Z then digits
     else take 1 digits +:+ String "." (drop 1 digits))
    +:+ exponent_text (n - 1).

(** [Number.prototype.toString()]. *)
Definition number_toString (x : number) : string :=
  match x with
  | NaN => "NaN"
  | Infinity negative => if negative then "-Infinity" else "Infinity"
  | Decimal m e =>
      if (m =? 0)%Z then "0"
      else
        let all := string_of_N (Z.abs_N m) in
        let text :=
          decimal_text (strip_zeros all)
                       (e + Z.of_nat (String.length all)) in
        if (m <? 0)%Z then String "-" text else text
  end.

Definition digit_value (a : ascii) : option N :=
  let n := N_of_ascii a in
  if ((48 <=? n) && (n <=? 57))%N then Some (n - 48)%N else None.

Definition is_digit (a : ascii) : bool :=
  match digit_value a with Some _ => true | None => false end.

(** The number that the digits of [s] spell after those of [acc]. *)
Fixpoint read_digits (acc : N) (s : string) : option N :=
  match s with
  | EmptyString => Some acc
  | String a s' => d ← digit_value a; read_digits (acc * 10 + d) s'
  end.

Definition read_natural (s : string) : option N :=
  if truthy s then read_digits 0 s else None.

Definition read_exponent (s : string) : option Z :=
  match s with
  | String "-" d => x ← read_natural d; Some (- Z.of_N x)%Z
  | String "+" d => Z.of_N <$> read_natural d
  | _ => Z.of_N <$> read_natural s
  end.

(** An unsigned decimal numeral: digits with at most one point among them,
    and optionally an exponent.  The result is the number that the digits
    spell and the power of ten that scales it. *)
Definition read_decimal (s : string) : option (N * Z) :=
  let '(mantissa, exponent) :=
    match break_on "e" s with
    | Some (l, r) => (l, read_exponent r)
    | None => (s, Some 0%Z)
    end in
  let '(whole, fraction) :=
    match break_on "." mantissa with
    | Some (l, r) => (l, r)
    | None => (mantissa, EmptyString)
    end in
  m ← read_natural (whole +:+ fraction);
  x ← exponent;
  Some (m, (x - Z.of_nat (String.length fraction))%Z).

(** Reading a numeral back, as [Number(s)] does on the numerals that
    [toString] gives; [None] where [Number(s)] is [NaN] for a text that is
    no numeral. *)
Definition number_of_string (s : string) : option number :=
  if String.eqb s "NaN" then Some NaN
  else
    let '(negative, body) :=
      match s with
      | String "-" s' => (true, s')
      | _ => (false, s)
      end in
    if String.eqb body "Infinity" then Some (Infinity negative)
    else
      '(m, e) ← read_decimal body;
      Some (Decimal (if negative then - Z.of_N m else Z.of_N m)%Z e).

(** *** JSON values, as [JSON.parse] returns them and [JSON.stringify]
    takes them.  The fields of an object are listed in enumeration order,
    each key once. *)
Inductive json :=
| JNull
| JBool (b : bool)
| JNum (n : number)
| JStr (s : string)
| JArr (items : list json)
| JObj (fields : list (string * json)).

Fixpoint assoc {A} (k : string) (l : list (string * A)) : option A :=
  match l with
  | [] => None
  | (k', v) :: l' => if String.eqb k k' then Some v else assoc k l'
  end.

(** [v.k].  The outer [None] is the [TypeError] of reading a property of
    [null]; the inner [None] is [undefined].  The keys read by the sources
    ([detail], [loc], [msg]) are own properties of objects only. *)
Definition prop (v : json) (k : string) : option (option json) :=
  match v with
  | JNull => None
  | JObj fields => Some (assoc k fields)
  | _ => Some None
  end.

Fixpoint join (sep : string) (l : list string) : string :=
  match l with
  | [] => EmptyString
  | [x] => x
  | x :: l' => x +:+ sep +:+ join sep l'
  end.

(** [String(v)], and the element conversion of [Array.prototype.join],
    which renders [null] (and [undefined]) as the empty string. *)
Fixpoint to_string (v : json) : string :=
  match v with
  | JNull => "null"
  | JBool true => "true"
  | JBool false => "false"
  | JNum n => number_toString n
  | JStr s => s
  | JArr items =>
      join "," (List.map (fun x => match x with
                                   | JNull => EmptyString
                                   | _ => to_string x
                                   end) items)
  | JObj _ => "[object Object]"
  end.

Definition join_element (v : json) : string :=
  match v with JNull => EmptyString | _ => to_string v end.

(** [`${v}`] for a property that may be [undefined]. *)
Definition template (v : option json) : string :=
  match v with Some x => to_string x | None => "undefined" end.

(** [a.join(sep)]: a [TypeError] ([None]) unless [a] is an array. *)
Definition array_join (a : option json) (sep : string) : option string :=
  match a with
  | Some (JArr items) => Some (join sep (List.map join_element items))
  | _ => None
  end.

End Js.

(** ** [types/workflow.ts] *)

Module Types.

Inductive Provider := openai | anthropic | google.

Definition provider_name (p : Provider) : string :=
  match p with
  | openai => "openai"
  | anthropic => "anthropic"
  | google => "google"
  end.

Definition provider_of_name (s : string) : option Provider :=
  if String.eqb s "openai" then Some openai
  else if String.eqb s "anthropic" then Some anthropic
  else if String.eqb s "google" then Some google
  else None.

Record RawInput := mkRawInput {
  content : string;
  source : option string;
  customer_id : option string;
  metadata : option (list (string * string))
}.

(** The numbers of a result arrive in a JSON body, so they are finite.  The
    sources compare them and show them rounded by [toFixed], which is not
    modelled; they never print them with [toString].  They are kept as their
    values. *)
Record SelfCheckResult := mkSelfCheck {
  verifications : Js.json;
  overall_accuracy : Q;
  hallucination_risk : Q;
  approved : bool;
  rejection_reason : option string
}.

(** [value_proposition], [normalized_input] and [extracted_data] are only
    displayed; they are kept as the JSON received. *)
Record WorkflowResult := mkResult {
  run_id : string;
  value_proposition : Js.json;
  normalized_input : Js.json;
  extracted_data : Js.json;
  self_check : SelfCheckResult;
  total_latency_ms : Q;
  total_cost_usd : Q;
  provider_used : string;
  model_used : string;
  success : bool;
  error : option string
}.

(** [Record<Provider, WorkflowResult>], in the order of the request. *)
Definition ParallelWorkflowResult := list (Provider * WorkflowResult).

End Types.

(** ** [input-step.tsx]: the form schema of step 1 *)

Module InputStep.
Import Types.

(** [InputFormValues = z.infer<typeof inputSchema>]. *)
Record InputFormValues := mkForm {
  f_content : string;
  f_source : option string;
  f_customer_id : option string
}.

Inductive ZodIssueCode := too_small.

Record ZodIssue := mkIssue {
  path : list string;
  code : ZodIssueCode;
  minimum : nat;
  message : string
}.

Inductive SafeParse :=
| ParseOk (data : InputFormValues)
| ParseError (issues : list ZodIssue).

Definition min_content : nat := 10.
Definition min_message : string := "Content must be at least 10 characters".

Definition content_issue : ZodIssue :=
  {| path := ["content"]; code := too_small;
     minimum := min_content; message := min_message |}.

(** [z.string().min(10, msg)]: the check is [data.length < 10]. *)
Definition check_content (s : string) : list ZodIssue :=
  if (Js.length s <? min_content)%nat then [content_issue] else [].

(** [inputSchema.safeParse]: [source] and [customer_id] are optional
    strings and raise nothing. *)
Definition inputSchema (v : InputFormValues) : SafeParse :=
  match check_content (f_content v) with
  | [] => ParseOk v
  | issues => ParseError issues
  end.

(** [onSubmit]: what [InputStep] hands to [onNext]. *)
Definition onSubmit (v : InputFormValues) : RawInput :=
  {| content := f_content v;
     source := Some (Js.or_else (f_source v) "manual");
     customer_id := Js.or_undefined (f_customer_id v);
     metadata := None |}.

(** [form.handleSubmit(onSubmit)]: validate, then submit or show the
    issues next to the field. *)
Definition handleSubmit (v : InputFormValues) : RawInput + list ZodIssue :=
  match inputSchema v with
  | ParseOk data => inl (onSubmit data)
  | ParseError issues => inr issues
  end.

End InputStep.

(** ** [URLSearchParams]: the application/x-www-form-urlencoded format *)

Module Url.

(** The list of name-value pairs of a [URLSearchParams] object. *)
Definition URLSearchParams := list (string * string).

Definition append (params : URLSearchParams) (name value : string)
  : URLSearchParams := params ++ [(name, value)].

Definition is_alnum (n : nat) : bool :=
  ((48 <=? n)%nat && (n <=? 57)%nat)
  || ((65 <=? n)%nat && (n <=? 90)%nat)
  || ((97 <=? n)%nat && (n <=? 122)%nat).

(** The bytes the serializer leaves as they are: ASCII letters and digits
    and [*], [-], [.], [_]. *)
Definition unreserved (a : ascii) : bool :=
  let n := nat_of_ascii a in
  is_alnum n || (n =? 42)%nat || (n =? 45)%nat || (n =? 46)%nat
  || (n =? 95)%nat.

Definition hex_char (n : nat) : ascii :=
  if (n <? 10)%nat then ascii_of_nat (48 + n) else ascii_of_nat (55 + n).

Definition encode_byte (a : ascii) : string :=
  if Ascii.eqb a " " then "+"
  else if unreserved a then String a EmptyString
  else
    let n := nat_of_ascii a in
    String "%" (String (hex_char (n / 16))
                       (String (hex_char (n mod 16)) EmptyString)).

Fixpoint encode (s : string) : string :=
  match s with
  | EmptyString => EmptyString
  | String a s' => encode_byte a +:+ encode s'
  end.

Definition encode_pair (p : string * string) : string :=
  encode (fst p) +:+ "=" +:+ encode (snd p).

(** [params.toString()]. *)
Definition toString (params : URLSearchParams) : string :=
  Js.join "&" (List.map encode_pair params).

Definition hex_value (a : ascii) : option nat :=
  let n := nat_of_ascii a in
  if ((48 <=? n)%nat && (n <=? 57)%nat) then Some (n - 48)
  else if ((65 <=? n)%nat && (n <=? 70)%nat) then Some (n - 55)
  else if ((97 <=? n)%nat && (n <=? 102)%nat) then Some (n - 87)
  else None.

(** Percent-decoding: a [%] that is not followed by two hexadecimal digits
    stands for itself. *)
Fixpoint percent_decode (s : string) : string :=
  match s with
  | EmptyString => EmptyString
  | String a s' =>
      if Ascii.eqb a "%" then
        match s' with
        | String h (String l rest) =>
            match hex_value h, hex_value l with
            | Some x, Some y =>
                String (ascii_of_nat (16 * x + y)) (percent_decode rest)
            | _, _ => String a (percent_decode s')
            end
        | _ => String a (percent_decode s')
        end
      else String a (percent_decode s')
  end.

Fixpoint plus_to_space (s : string) : string :=
  match s with
  | EmptyString => EmptyString
  | String a s' =>
      String (if Ascii.eqb a "+" then " "%char else a) (plus_to_space s')
  end.

Definition decode (s : string) : string := percent_decode (plus_to_space s).

(** [s.split(sep)] for a one-character separator. *)
Fixpoint split_on (sep : ascii) (s : string) : list string :=
  match s with
  | EmptyString => [EmptyString]
  | String a s' =>
      if Ascii.eqb a sep then EmptyString :: split_on sep s'
      else match split_on sep s' with
           | w :: ws => String a w :: ws
           | [] => [String a EmptyString]
           end
  end.

Definition parse_pair (seq : string) : string * string :=
  match Js.break_on "=" seq with
  | Some (name, value) => (decode name, decode value)
  | None => (decode seq, EmptyString)
  end.

(** [new URLSearchParams(query)]: the urlencoded parser.  Empty sequences
    between [&] are skipped. *)
Definition parse (query : string) : URLSearchParams :=
  List.map parse_pair
    (List.filter Js.truthy (split_on "&" query)).

(** [params.get(name)]. *)
Definition get (params : URLSearchParams) (name : string) : option string :=
  Js.assoc name params.

(** [s] does not contain the character [c]. *)
Fixpoint lacks (c : ascii) (s : string) : bool :=
  match s with
  | EmptyString => true
  | String a s' => negb (Ascii.eqb a c) && lacks c s'
  end.

(** A URL as written, without its fragment: what comes before the first
    [#]. *)
Definition before_fragment (url : string) : string :=
  match Js.break_on "#" url with
  | Some (l, _) => l
  | None => url
  end.

(** The query of a URL as written: what lies between the first [?] and
    the fragment; nothing when there is no [?] before the fragment. *)
Definition query_of (url : string) : string :=
  match Js.break_on "?" (before_fragment url) with
  | Some (_, q) => q
  | None => EmptyString
  end.

(** The characters of a query that the URL parser of [fetch] takes as they
    are: the printable ASCII characters other than the space, the double
    quote, [#], [<], [>] and the apostrophe; it percent-encodes the others
    and drops tabs and line breaks.  A query written with these characters is the query of the URL
    requested. *)
Definition query_safe (a : ascii) : bool :=
  let n := nat_of_ascii a in
  (33 <=? n)%nat && (n <=? 126)%nat
  && negb ((n =? 34)%nat || (n =? 35)%nat || (n =? 39)%nat
           || (n =? 60)%nat || (n =? 62)%nat).

End Url.

(** ** [lib/api.ts] and the query hooks *)

Module Api.
Import Types.

(** [class APIRequestError extends Error]. *)
Record APIRequestError := mkError {
  message : string;
  statusCode : Z;
  details : option Js.json
}.







(** What the platform and the collaborators throw: an [Error] (a
    [TypeError] of [fetch], a [SyntaxError] of [response.json()]) or a value
    that is not an [Error]. *)
Inductive Exception :=
| ErrorObject (msg : string)
| NotAnError.

(** What a rejected promise of the client carries. *)
Inductive Thrown :=
| ThrownAPI (e : APIRequestError)   (* [instanceof APIRequestError] *)
| ThrownRaw (x : Exception).

Inductive Outcome :=
| Resolved (v : Js.json)
| Rejected (t : Thrown).

(** The session that [supabase.auth.getSession()] reports. *)
Record Session := mkSession { access_token : string }.

Inductive SessionReply :=
| SessionIs (s : option Session)
| SessionThrows (x : Exception).

(** A [Response]: [response.json()] gives the parsed body or rejects with
    the parser's [SyntaxError]. *)
Inductive Body :=
| BodyJson (v : Js.json)
| BodyInvalid (syntax_error : string).

Record Response := mkResponse {
  status : Z;
  statusText : string;
  body : Body
}.

(** [response.ok]: the status is in the range 200-299. *)
Definition ok (r : Response) : bool :=
  (200 <=? status r)%Z && (status r <=? 299)%Z.

Record RequestInit := mkInit {
  method : option string;
  headers : option (gmap string string);
  init_body : option Js.json
}.

(** What [fetch] is called with.  The body is the JSON value whose text
    [JSON.stringify] produced. *)
Record Request := mkRequest {
  url : string;
  req_method : option string;
  req_headers : gmap string string;
  req_body : option Js.json
}.

Inductive FetchReply :=
| Responds (r : Response)
| FetchThrows (x : Exception).

Inductive Effect :=
| GetSession
| Fetch (r : Request).

(** The collaborators of the client: the build-time URL, the auth
    collaborator, and the network, which answers the [n]-th [fetch] of the
    page.  [fetched] counts the [fetch] calls made and [log] records the
    calls to the collaborators, latest last. *)
Record World := mkWorld {
  env_api_url : option string;
  auth : SessionReply;
  network : nat -> Request -> FetchReply;
  fetched : nat;
  log : list Effect
}.

Definition API_URL (w : World) : string :=
  Js.or_else (env_api_url w) "http://localhost:8000".

Definition record_effect (e : Effect) (w : World) : World :=
  {| env_api_url := env_api_url w; auth := auth w; network := network w;
     fetched := match e with Fetch _ => S (fetched w) | GetSession => fetched w end;
     log := log w ++ [e] |}.

Definition default_message : string := "API request failed".

(** [`${err.loc.join('.')}: ${err.msg}`], in the option monad: [None] is
    a [TypeError]. *)
Definition entry_message (err : Js.json) : option string :=
  loc ← Js.prop err "loc";
  path ← Js.array_join loc ".";
  msg ← Js.prop err "msg";
  Some (path +:+ ": " +:+ Js.template msg).

(** [errorData.detail.map(...)]: the first entry that throws ends it. *)
Definition entry_messages (entries : list Js.json) : option (list string) :=
  mapM entry_message entries.

(** The body of the inner [try] once [response.json()] has resolved: the
    message and the details it leaves, or [None] when it throws. *)
Definition read_detail (errorData : Js.json)
  : option (string * option Js.json) :=
  detail ← Js.prop errorData "detail";
  match detail with
  | Some (Js.JStr s) => Some (s, None)
  | Some (Js.JArr entries) =>
      ms ← entry_messages entries;
      Some (Js.join ", " ms, Some (Js.JArr entries))
  | _ => Some (default_message, None)
  end.

(** The [if (!response.ok)] branch: the error that is thrown. *)
Definition error_of_response (r : Response) : APIRequestError :=
  let from_status :=
    mkError (Js.or_else (Some (statusText r)) default_message)
            (status r) None in
  match body r with
  | BodyInvalid _ => from_status
  | BodyJson errorData =>
      match read_detail errorData with
      | None => from_status
      | Some (msg, det) => mkError msg (status r) det
      end
  end.

(** The outer [catch]. *)
Definition rethrow (t : Thrown) : Thrown :=
  match t with
  | ThrownAPI e => ThrownAPI e
  | ThrownRaw (ErrorObject msg) => ThrownAPI (mkError msg 0 None)
  | ThrownRaw NotAnError => ThrownAPI (mkError "Network error" 0 None)
  end.

(** [{ 'Content-Type': 'application/json', ...options.headers }], then
    the [Authorization] entry when [session?.access_token] is truthy. *)
Definition build_headers (s : option Session) (options : RequestInit)
  : gmap string string :=
  let base : gmap string string :=
    default ∅ (headers options) ∪ {[ "Content-Type" := "application/json" ]} in
  match s with
  | Some sess =>
      if Js.truthy (access_token sess)
      then <[ "Authorization" := "Bearer " +:+ access_token sess ]> base
      else base
  | None => base
  end.

(** [apiRequest].  The parsed body of a successful response is returned
    by [return response.json()], a promise that the [try] does not await:
    its rejection is not seen by the [catch] and reaches the caller as it
    is. *)
Definition make_request (w : World) (s : option Session)
    (endpoint : string) (options : RequestInit) : Request :=
  {| url := API_URL w +:+ endpoint;
     req_method := method options;
     req_headers := build_headers s options;
     req_body := init_body options |}.

Definition apiRequest (endpoint : string) (options : RequestInit) (w : World)
  : Outcome * World :=
  let w1 := record_effect GetSession w in
  match auth w with
  | SessionThrows x => (Rejected (rethrow (ThrownRaw x)), w1)
  | SessionIs s =>
      let req := make_request w s endpoint options in
      let w2 := record_effect (Fetch req) w1 in
      match network w (fetched w) req with
      | FetchThrows x => (Rejected (rethrow (ThrownRaw x)), w2)
      | Responds r =>
          if negb (ok r)
          then (Rejected (rethrow (ThrownAPI (error_of_response r))), w2)
          else match body r with
               | BodyJson v => (Resolved v, w2)
               | BodyInvalid e => (Rejected (ThrownRaw (ErrorObject e)), w2)
               end
      end
  end.

(** The variables of [useExecuteWorkflow]'s [mutationFn]. *)
Record ExecuteVars := mkVars {
  input : RawInput;
  provider : option Provider;
  model : option string;
  temperature : option Js.number
}.

(** [JSON.stringify(input)]: the properties that are [undefined] are left
    out. *)
Definition optional_field (k : string) (v : option string)
  : list (string * Js.json) :=
  match v with Some s => [(k, Js.JStr s)] | None => [] end.

Definition metadata_toJSON (m : list (string * string)) : Js.json :=
  Js.JObj (List.map (fun kv => (fst kv, Js.JStr (snd kv))) m).

Definition RawInput_toJSON (i : RawInput) : Js.json :=
  Js.JObj
    ([("content", Js.JStr (content i))]
     ++ optional_field "source" (source i)
     ++ optional_field "customer_id" (customer_id i)
     ++ match metadata i with
        | Some m => [("metadata", metadata_toJSON m)]
        | None => []
        end).

(** Reading a [RawInput] back from the JSON value of a request body. *)
Definition string_field (k : string) (fields : list (string * Js.json))
  : option (option string) :=
  match Js.assoc k fields with
  | None => Some None
  | Some (Js.JStr s) => Some (Some s)
  | Some _ => None
  end.

Fixpoint metadata_of_fields (fields : list (string * Js.json))
  : option (list (string * string)) :=
  match fields with
  | [] => Some []
  | (k, Js.JStr v) :: rest =>
      match metadata_of_fields rest with
      | Some m => Some ((k, v) :: m)
      | None => None
      end
  | _ => None
  end.

Definition RawInput_ofJSON (v : Js.json) : option RawInput :=
  match v with
  | Js.JObj fields =>
      match Js.assoc "content" fields,
            string_field "source" fields,
            string_field "customer_id" fields with
      | Some (Js.JStr c), Some src, Some cid =>
          match Js.assoc "metadata" fields with
          | None => Some (mkRawInput c src cid None)
          | Some (Js.JObj m) =>
              match metadata_of_fields m with
              | Some md => Some (mkRawInput c src cid (Some md))
              | None => None
              end
          | Some _ => None
          end
      | _, _, _ => None
      end
  | _ => None
  end.

Definition default_provider : Provider := google.
Definition default_temperature : Js.number := Js.Decimal 7 (-1).

(** [new URLSearchParams({ provider, temperature: temperature.toString() })]
    and [if (model) params.append('model', model)]. *)
Definition execute_params (v : ExecuteVars) : Url.URLSearchParams :=
  let params :=
    [ ("provider", provider_name (default default_provider (provider v)));
      ("temperature",
       Js.number_toString (default default_temperature (temperature v))) ] in
  match model v with
  | Some m => if Js.truthy m then Url.append params "model" m else params
  | None => params
  end.

Definition post (body : Js.json) : RequestInit :=
  {| method := Some "POST"; headers := None; init_body := Some body |}.

(** The endpoint and the options that the [mutationFn] of
    [useExecuteWorkflow] passes to [apiRequest]. *)
Definition execute_endpoint (v : ExecuteVars) : string :=
  "/api/v1/workflow/execute?" +:+ Url.toString (execute_params v).

Definition executeWorkflow (v : ExecuteVars) (w : World) : Outcome * World :=
  apiRequest (execute_endpoint v) (post (RawInput_toJSON (input v))) w.

(** [useCompareProviders]: [providers] repeated, default
    [['openai', 'anthropic']]. *)
Definition compare_params (providers : option (list Provider))
  : Url.URLSearchParams :=
  List.map (fun p => ("providers", provider_name p))
           (default [openai; anthropic] providers).

Definition compareProviders (i : RawInput) (providers : option (list Provider))
    (w : World) : Outcome * World :=
  apiRequest
    ("/api/v1/workflow/execute-parallel?" +:+
       Url.toString (compare_params providers))
    (post (RawInput_toJSON i)) w.

(** The calls that the client makes: the [mutationFn] of the two hooks. *)
Inductive ClientCall :=
| Execute (v : ExecuteVars)
| Compare (i : RawInput) (providers : option (list Provider)).

Definition call (c : ClientCall) (w : World) : Outcome * World :=
  match c with
  | Execute v => executeWorkflow v w
  | Compare i providers => compareProviders i providers w
  end.

(** [useMutation({ mutationFn })].  A mutation runs its function again
    after a rejection as many times as its [retry] option says; the hooks
    give no such option, and without one a mutation is not retried. *)
Fixpoint run_mutation (retry : nat) (fn : World -> Outcome * World)
    (w : World) : Outcome * World :=
  match fn w with
  | (Rejected t, w') =>
      match retry with
      | O => (Rejected t, w')
      | S n => run_mutation n fn w'
      end
  | settled => settled
  end.

Definition mutation_retry : nat := 0.

(** [executeMutation.mutate(vars)]: the network side of it. *)
Definition mutate (v : ExecuteVars) (w : World) : Outcome * World :=
  run_mutation mutation_retry (executeWorkflow v) w.

(** The number of requests that one execution makes. *)
Definition attempts (v : ExecuteVars) (w : World) : nat :=
  fetched (snd (mutate v w)) - fetched w.

(** [error.statusCode], as a caller that catches the rejection reads it. *)
Definition statusCode_of (o : Outcome) : option Z :=
  match o with
  | Rejected (ThrownAPI e) => Some (statusCode e)
  | _ => None
  end.

End Api.

(** ** [workflow-wizard.tsx] and [steps/processing-step.tsx] *)

Module Wizard.
Import Types.

Inductive WorkflowStep := Input | Config | Processing | Results.

Record WorkflowFormData := mkFormData {
  input : RawInput;
  provider : Provider;
  model : option string;
  temperature : Js.number
}.

(** The argument of [ConfigStep]'s [onNext]; [cfg_model = None] is an
    object without the [model] key. *)
Record ConfigData := mkConfig {
  cfg_provider : Provider;
  cfg_model : option string;
  cfg_temperature : Js.number
}.

Inductive Toast :=
| ToastSuccess (msg : string)
| ToastError (msg : string).

(** [executeMutation.status]. *)
Inductive MutationStatus := Idle | Pending | Succeeded | Errored.

(** How the mutation of a [ProcessingStep] settles: [apiRequest] resolved
    with a body, read as a [WorkflowResult], or it rejected. *)
Inductive Settlement :=
| Fulfilled (data : WorkflowResult)
| Failed (t : Api.Thrown).

(** A rendered [ProcessingStep]: which instance it is, the variables its
    effect gave to [mutate] when it mounted, and the state of its
    mutation. *)
Record ProcessingStep := mkProcessing {
  instance : nat;
  vars : Api.ExecuteVars;
  status : MutationStatus;
  mutation_error : option Api.Thrown
}.

(** The state of [WorkflowWizard]: its three [useState] cells, the
    [ProcessingStep] it renders (one is rendered exactly while
    [step === 'processing']), the number of [ProcessingStep] instances it
    has created, the number of calls of [copyToClipboard] that wait for
    the clipboard, and the toasts shown so far, oldest first. *)
Record State := mkState {
  step : WorkflowStep;
  formData : WorkflowFormData;
  result : option WorkflowResult;
  mounted : option ProcessingStep;
  mounts : nat;
  copying : nat;
  toasts : list Toast
}.

Definition initialFormData : WorkflowFormData :=
  {| input := {| content := EmptyString; source := Some "manual";
                 customer_id := None; metadata := None |};
     provider := google;
     model := None;
     temperature := Js.Decimal 7 (-1) |}.

Definition initial : State :=
  {| step := Input; formData := initialFormData; result := None;
     mounted := None; mounts := 0; copying := 0; toasts := [] |}.

Definition setFormData (fd : WorkflowFormData) (s : State) : State :=
  {| step := step s; formData := fd; result := result s;
     mounted := mounted s; mounts := mounts s; copying := copying s;
     toasts := toasts s |}.

Definition setResult (r : option WorkflowResult) (s : State) : State :=
  {| step := step s; formData := formData s; result := r;
     mounted := mounted s; mounts := mounts s; copying := copying s;
     toasts := toasts s |}.

Definition toast (t : Toast) (s : State) : State :=
  {| step := step s; formData := formData s; result := result s;
     mounted := mounted s; mounts := mounts s; copying := copying s;
     toasts := toasts s ++ [t] |}.

(** The variables that the effect of [ProcessingStep] passes to [mutate]. *)
Definition vars_of (fd : WorkflowFormData) : Api.ExecuteVars :=
  {| Api.input := input fd;
     Api.provider := Some (provider fd);
     Api.model := model fd;
     Api.temperature := Some (temperature fd) |}.

(** [setStep]: moving to ['processing'] from another step renders a new
    [ProcessingStep], whose effect starts the mutation at once; moving to
    any other step removes the one rendered. *)
Definition setStep (st : WorkflowStep) (s : State) : State :=
  match st, step s with
  | Processing, Processing => s
  | Processing, _ =>
      {| step := Processing; formData := formData s; result := result s;
         mounted := Some {| instance := mounts s;
                            vars := vars_of (formData s);
                            status := Pending;
                            mutation_error := None |};
         mounts := S (mounts s); copying := copying s; toasts := toasts s |}
  | _, _ =>
      {| step := st; formData := formData s; result := result s;
         mounted := None; mounts := mounts s; copying := copying s;
         toasts := toasts s |}
  end.

(** The callbacks that [WorkflowWizard] gives to its steps. *)
Definition input_onNext (i : RawInput) (s : State) : State :=
  setStep Config
    (setFormData {| input := i; provider := provider (formData s);
                    model := model (formData s);
                    temperature := temperature (formData s) |} s).

Definition config_onBack (s : State) : State := setStep Input s.

Definition config_onNext (c : ConfigData) (s : State) : State :=
  setStep Processing
    (setFormData {| input := input (formData s);
                    provider := cfg_provider c;
                    model := match cfg_model c with
                             | Some m => Some m
                             | None => model (formData s)
                             end;
                    temperature := cfg_temperature c |} s).

Definition onComplete (workflowResult : WorkflowResult) (s : State) : State :=
  setStep Results (setResult (Some workflowResult) s).

Definition onCancel (s : State) : State := setStep Config s.

Definition onCreateNew (s : State) : State :=
  setStep Input (setResult None (setFormData initialFormData s)).

(** The mutation of the rendered [ProcessingStep] takes a new status. *)
Definition set_status (st : MutationStatus) (err : option Api.Thrown)
    (s : State) : State :=
  match mounted s with
  | Some p =>
      {| step := step s; formData := formData s; result := result s;
         mounted := Some {| instance := instance p; vars := vars p;
                            status := st; mutation_error := err |};
         mounts := mounts s; copying := copying s; toasts := toasts s |}
  | None => s
  end.

(** The callbacks that [ProcessingStep] gives to [mutate]. *)
Definition onSuccess (data : WorkflowResult) (s : State) : State :=
  if success data
  then onComplete data (toast (ToastSuccess "Workflow completed successfully!") s)
  else toast (ToastError (Js.or_else (error data) "Workflow failed")) s.

Definition thrown_message (t : Api.Thrown) : option string :=
  match t with
  | Api.ThrownAPI e => Some (Api.message e)
  | Api.ThrownRaw (Api.ErrorObject msg) => Some msg
  | Api.ThrownRaw Api.NotAnError => None
  end.

Definition onError (t : Api.Thrown) (s : State) : State :=
  toast (ToastError (Js.or_else (thrown_message t) "Failed to execute workflow")) s.

(** The mutation started by instance [i] settles.  [onSuccess] and
    [onError] are given to [mutate], not to [useMutation]: they belong to the
    mutation observer of the [ProcessingStep] that called [mutate], which
    React Query runs only while that component is still rendered (it is
    rendered under [step === 'processing']) and, as each observer follows one
    mutation, only for the execution it started.  A settlement for an
    instance that is not rendered any more finds nobody to call. *)
Definition settle (i : nat) (o : Settlement) (s : State) : State :=
  match mounted s with
  | Some p =>
      if (instance p =? i)%nat
      then match status p, o with
           | Pending, Fulfilled data => onSuccess data (set_status Succeeded None s)
           | Pending, Failed t => onError t (set_status Errored (Some t) s)
           | _, _ => s
           end
      else s
  | None => s
  end.

Definition setCopying (n : nat) (s : State) : State :=
  {| step := step s; formData := formData s; result := result s;
     mounted := mounted s; mounts := mounts s; copying := n;
     toasts := toasts s |}.

(** [copyToClipboard] of [ResultsStep], up to its [await]: one more call
    waits for the clipboard.  The text written is not modelled. *)
Definition copyToClipboard (s : State) : State := setCopying (S (copying s)) s.

(** A call of [copyToClipboard] comes back from its [await].  When the
    text was written, it goes on to [toast.success('Copied to clipboard!')],
    whatever the wizard shows by then; when building the text or writing it
    failed, the function ends there. *)
Definition clipboard_settled (written : bool) (s : State) : State :=
  match copying s with
  | O => s
  | S n =>
      if written
      then toast (ToastSuccess "Copied to clipboard!") (setCopying n s)
      else setCopying n s
  end.

(** What the user, the network and the clipboard can do. *)
Inductive Event :=
| SubmitInput (v : InputStep.InputFormValues)  (* "Next: Configure" *)
| ClickBack                                    (* "Back" of step 2 *)
| SubmitConfig (p : Provider) (t : Js.number)  (* "Generate Workflow" *)
| Settled (i : nat) (o : Settlement)
| ClickCancel                                  (* "Cancel Workflow" *)
| ClickGoBack                                  (* "Go Back" of the error panel *)
| ClickCreateNew                               (* "Create New Workflow" *)
| ClickCopy                                    (* "Copy to Clipboard" *)
| ClipboardSettled (written : bool).

Definition isPending (s : State) : bool :=
  match mounted s with
  | Some p => match status p with Pending => true | _ => false end
  | None => false
  end.

Definition isError (s : State) : bool :=
  match mounted s with
  | Some p => match status p with Errored => true | _ => false end
  | None => false
  end.

(** One event, given to the step that is rendered.  "Cancel Workflow" is
    [disabled={executeMutation.isPending}]; "Go Back" is rendered under
    [executeMutation.isError]; [ResultsStep], with "Create New Workflow"
    and "Copy to Clipboard", is rendered under [step === 'results' && result];
    a call that waits for the clipboard comes back on any step. *)
Definition handle (e : Event) (s : State) : State :=
  match e, step s with
  | SubmitInput v, Input =>
      match InputStep.handleSubmit v with
      | inl raw => input_onNext raw s
      | inr _ => s
      end
  | ClickBack, Config => config_onBack s
  | SubmitConfig p t, Config =>
      config_onNext {| cfg_provider := p; cfg_model := None;
                       cfg_temperature := t |} s
  | Settled i o, _ => settle i o s
  | ClickCancel, Processing => if isPending s then s else onCancel s
  | ClickGoBack, Processing => if isError s then onCancel s else s
  | ClickCreateNew, Results =>
      match result s with
      | Some _ => onCreateNew s
      | None => s
      end
  | ClickCopy, Results =>
      match result s with
      | Some _ => copyToClipboard s
      | None => s
      end
  | ClipboardSettled written, _ => clipboard_settled written s
  | _, _ => s
  end.

Definition run (es : list Event) (s : State) : State :=
  List.fold_left (fun acc e => handle e acc) es s.

(** On the results step a result is held, and it is a success. *)
Definition holds_success (s : State) : Prop :=
  step s = Results -> exists r, result s = Some r /\ success r = true.

Inductive reachable : State -> Prop :=
| reachable_initial : reachable initial
| reachable_handle e s : reachable s -> reachable (handle e s).

(** Instance [a] has been rendered and is not rendered any more. *)
Definition gone (a : nat) (s : State) : Prop :=
  (a < mounts s)%nat /\ forall q, mounted s = Some q -> instance q <> a.

(** What the user sees of the wizard's own state. *)
Definition visible (s : State)
  : WorkflowStep * WorkflowFormData * option WorkflowResult :=
  (step s, formData s, result s).

End Wizard.

(** ** The parallel comparison aggregator *)

Module Aggregator.
Import Types.

(** The comparison view that ranks the results of [useCompareProviders]
    and recommends a provider is not among the sources: the hook is, the view
    that would consume it is listed by the README under future enhancements.
    Its definitions below follow section 4.5 of the specification. *)

(** Modelled from the spec: the aggregator's filter, missing from the
    sources; only providers with [approved == true] take part in the
    recommendation. *)
Definition is_approved (e : Provider * WorkflowResult) : bool :=
  approved (self_check (snd e)).

(** Modelled from the spec: the aggregator's order, missing from the
    sources; ascending [total_cost_usd], ties broken by ascending
    [total_latency_ms].  [a] ranks no later than [b]. *)
Definition ranks_before (a b : Provider * WorkflowResult) : bool :=
  let ca := total_cost_usd (snd a) in
  let cb := total_cost_usd (snd b) in
  if Qeq_bool ca cb
  then Qle_bool (total_latency_ms (snd a)) (total_latency_ms (snd b))
  else Qle_bool ca cb.

(** Modelled from the spec: the aggregator's ranking, missing from the
    sources, as a stable insertion sort of the approved entries. *)
Fixpoint insert_ranked (e : Provider * WorkflowResult)
    (l : list (Provider * WorkflowResult)) : list (Provider * WorkflowResult) :=
  match l with
  | [] => [e]
  | x :: l' => if ranks_before e x then e :: l else x :: insert_ranked e l'
  end.

Definition ranking (r : ParallelWorkflowResult) : list (Provider * WorkflowResult) :=
  List.fold_right insert_ranked [] (List.filter is_approved r).

(** Modelled from the spec: the aggregator's recommendation, missing from
    the sources; the first of the ranking, and none when no provider is
    approved. *)
Definition recommend (r : ParallelWorkflowResult) : option Provider :=
  match ranking r with
  | [] => None
  | e :: _ => Some (fst e)
  end.

(** [a] costs less than [b], or as much and takes no longer. *)
Definition no_later (a b : Provider * WorkflowResult) : Prop :=
  (total_cost_usd (snd a) < total_cost_usd (snd b))%Q
  \/ (total_cost_usd (snd a) == total_cost_usd (snd b)
      /\ total_latency_ms (snd a) <= total_latency_ms (snd b))%Q.

(** The first of a ranking ranks no later than any of its entries. *)
Definition head_first (l : list (Provider * WorkflowResult)) : Prop :=
  match l with
  | [] => True
  | h :: _ => forall y, In y l -> no_later h y
  end.

End Aggregator.


(** ** Sample data: the examples of the specification *)

Module Samples.
Import Types.

Definition feedback : string := "Customer wants to automate data entry".

Definition form : InputStep.InputFormValues :=
  InputStep.mkForm feedback (Some "manual") None.

Definition raw_input : RawInput := mkRawInput feedback None None None.

Definition vars : Api.ExecuteVars :=
  Api.mkVars raw_input (Some google) None (Some (Js.Decimal 7 (-1))).

(** The variables that the wizard sends for [form] with its defaults. *)
Definition vars_sent : Api.ExecuteVars :=
  Api.mkVars (mkRawInput feedback (Some "manual") None None)
             (Some google) None (Some (Js.Decimal 7 (-1))).

Definition world_of (a : Api.SessionReply) (reply : Api.FetchReply) : Api.World :=
  {| Api.env_api_url := None; Api.auth := a; Api.network := fun _ _ => reply;
     Api.fetched := 0; Api.log := [] |}.

Definition signed_in : Api.SessionReply :=
  Api.SessionIs (Some (Api.mkSession "eyJhbGciOi")).

Definition offline : Api.World :=
  world_of signed_in (Api.FetchThrows (Api.ErrorObject "Failed to fetch")).

Definition no_options : Api.RequestInit := Api.mkInit None None None.

Definition unauthorized : Api.Response :=
  Api.mkResponse 401 "Unauthorized"
    (Api.BodyJson (Js.JObj [("detail", Js.JStr "Not authenticated")])).

Definition bad_gateway : Api.Response :=
  Api.mkResponse 502 "Bad Gateway"
    (Api.BodyInvalid "Unexpected token < in JSON at position 0").


(** A result of provider [p] with the given verdict, cost and latency. *)
Definition result_of (p : Provider) (ok : bool) (cost latency : Q)
    (reason err : option string) : WorkflowResult :=
  {| run_id := "run-" +:+ provider_name p;
     value_proposition := Js.JNull;
     normalized_input := Js.JNull;
     extracted_data := Js.JNull;
     self_check := {| verifications := Js.JArr [];
                      overall_accuracy := if ok then 9 # 10 else 65 # 100;
                      hallucination_risk := if ok then 1 # 10 else 42 # 100;
                      approved := ok;
                      rejection_reason := reason |};
     total_latency_ms := latency;
     total_cost_usd := cost;
     provider_used := provider_name p;
     model_used := EmptyString;
     success := ok;
     error := err |}.

Definition approved_result : WorkflowResult :=
  result_of google true (3 # 1000) (2500 # 1) None None.

(** A result that the self-check rejected, with its reason. *)
Definition rejected_with (reason : option string) : WorkflowResult :=
  result_of openai false (15 # 1000) (4000 # 1) reason None.

Definition accuracy_too_low : string :=
  "Overall accuracy too low (0.65 < 0.7 threshold)".

(** The wizard after "Next: Configure" and "Generate Workflow": a
    processing step is rendered and its execution is pending. *)
Definition processing_state : Wizard.State :=
  Wizard.run [Wizard.SubmitInput form;
              Wizard.SubmitConfig google (Js.Decimal 7 (-1))]
             Wizard.initial.

(** The comparison of the specification: costs 0.015, 0.008 and 0.003. *)
Definition comparison (openai_ok anthropic_ok google_ok : bool)
  : ParallelWorkflowResult :=
  [ (openai, result_of openai openai_ok (15 # 1000) (4000 # 1) None None);
    (anthropic, result_of anthropic anthropic_ok (8 # 1000) (5500 # 1) None None);
    (google, result_of google google_ok (3 # 1000) (3000 # 1) None None) ].

End Samples.


(** ** [middleware.ts]: which routes a visitor may open *)

Module Middleware.

(** [s.startsWith(p)]. *)
Fixpoint startsWith (s p : string) {struct p} : bool :=
  match p, s with
  | EmptyString, _ => true
  | String b p', String a s' => Ascii.eqb a b && startsWith s' p'
  | String _ _, EmptyString => false
  end.

(** What the middleware answers: the request goes on ([return response])
    or the visitor is sent to another path of the site. *)
Inductive Decision :=
| Next
| Redirect (pathname : string).

Definition signed_in (session : option Api.Session) : bool :=
  match session with Some _ => true | None => false end.

(** The routes that need a session. *)
Definition protected (pathname : string) : bool :=
  startsWith pathname "/dashboard"
  || startsWith pathname "/workflow"
  || startsWith pathname "/history"
  || startsWith pathname "/analytics"
  || startsWith pathname "/settings".

(** [middleware], once [supabase.auth.getSession()] has answered: the
    three [if]s in their order.  For which requests the platform runs it
    ([config.matcher]) is not modelled. *)
Definition middleware (session : option Api.Session) (pathname : string)
  : Decision :=
  if negb (signed_in session) && protected pathname then Redirect "/login"
  else if signed_in session && String.eqb pathname "/login"
  then Redirect "/dashboard"
  else if String.eqb pathname "/"
  then (if signed_in session then Redirect "/dashboard" else Redirect "/login")
  else Next.

End Middleware.

(** ** [components/layout/header.tsx]: the navigation bar *)

Module Header.

Record NavItem := mkNav { name : string; href : string }.

Definition navigation : list NavItem :=
  [ mkNav "Dashboard" "/dashboard";
    mkNav "New Workflow" "/workflow/new";
    mkNav "Compare" "/workflow/compare";
    mkNav "History" "/history";
    mkNav "Analytics" "/analytics";
    mkNav "Settings" "/settings" ].

(** [const isActive = pathname.startsWith(item.href)]. *)
Definition isActive (pathname : string) (item : NavItem) : bool :=
  Middleware.startsWith pathname (href item).

(** The items drawn with the [default] variant. *)
Definition active (pathname : string) : list NavItem :=
  List.filter (isActive pathname) navigation.

End Header.

(** ** The other hooks of the query module *)

Module Queries.
Import Types.

(** The endpoint of [useCompareProviders]. *)
Definition compare_endpoint (providers : option (list Provider)) : string :=
  "/api/v1/workflow/execute-parallel?" +:+
    Url.toString (Api.compare_params providers).

(** [filters] of [useWorkflowHistory]. *)
Inductive HistoryStatus := history_success | history_error.

Definition status_name (s : HistoryStatus) : string :=
  match s with
  | history_success => "success"
  | history_error => "error"
  end.

Record HistoryFilters := mkFilters {
  provider : option Provider;
  status : option HistoryStatus;
  source : option string
}.

Definition append_if (o : option string) (name : string)
    (params : Url.URLSearchParams) : Url.URLSearchParams :=
  match o with
  | Some v => if Js.truthy v then Url.append params name v else params
  | None => params
  end.

(** The query of [useWorkflowHistory(page = 1, limit = 20, filters?)]:
    [page] and [limit], then each filter that is present and not empty. *)
Definition history_params (page limit : option Js.number)
    (filters : option HistoryFilters) : Url.URLSearchParams :=
  let params :=
    [ ("page", Js.number_toString (default (Js.Decimal 1 0) page));
      ("limit", Js.number_toString (default (Js.Decimal 20 0) limit)) ] in
  let params :=
    append_if (provider_name <$> (filters ≫= provider)) "provider" params in
  let params :=
    append_if (status_name <$> (filters ≫= status)) "status" params in
  append_if (filters ≫= source) "source" params.

Definition history_endpoint (page limit : option Js.number)
    (filters : option HistoryFilters) : string :=
  "/api/v1/workflows?" +:+ Url.toString (history_params page limit filters).

(** The [queryFn] of [useWorkflowHistory]: [apiRequest] with no options. *)
Definition workflowHistory (page limit : option Js.number)
    (filters : option HistoryFilters) (w : Api.World)
  : Api.Outcome * Api.World :=
  Api.apiRequest (history_endpoint page limit filters)
                 (Api.mkInit None None None) w.

(** The [queryFn] of [useWorkflowById]: the run id goes into the path as
    it is. *)
Definition workflowById_endpoint (runId : string) : string :=
  "/api/v1/workflow/" +:+ runId.

Definition workflowById (runId : string) (w : Api.World)
  : Api.Outcome * Api.World :=
  Api.apiRequest (workflowById_endpoint runId) (Api.mkInit None None None) w.

(** [error instanceof Error ? error.message : 'Network error'] of the
    outer [catch] of [apiRequest]. *)
Definition exception_message (x : Api.Exception) : string :=
  match x with
  | Api.ErrorObject msg => msg
  | Api.NotAnError => "Network error"
  end.



(** The input that a call of the client sends. *)
Definition call_input (c : Api.ClientCall) : RawInput :=
  match c with
  | Api.Execute v => Api.input v
  | Api.Compare i _ => i
  end.

Definition call_endpoint (c : Api.ClientCall) : string :=
  match c with
  | Api.Execute v => Api.execute_endpoint v
  | Api.Compare _ providers => compare_endpoint providers
  end.

(** [s] consists of characters that satisfy [ok]. *)
Fixpoint all_chars (ok : ascii -> bool) (s : string) : bool :=
  match s with
  | EmptyString => true
  | String a s' => ok a && all_chars ok s'
  end.

(** The characters of a serialized query: what the serializer leaves as
    it is, and [+], [%], [=], [&]. *)
Definition query_char (a : ascii) : bool :=
  Url.unreserved a
  || Ascii.eqb a "+" || Ascii.eqb a "%" || Ascii.eqb a "=" || Ascii.eqb a "&".

End Queries.

(** ** [steps/config-step.tsx]: the temperature slider *)

Module ConfigStep.

(** The value of the slider ([min={0}], [max={2}], [step={0.1}]) at its
    [k]-th position, for [k] from 0 to 20: [k] tenths, written without a
    zero at the end of its digits. *)
Definition slider_value (k : nat) : Js.number :=
  if (k mod 10 =? 0)%nat
  then Js.Decimal (Z.of_nat (k / 10)) 0
  else Js.Decimal (Z.of_nat k) (-1).

Definition slider_positions : nat := 20.

End ConfigStep.

(** ** What the wizard and the processing step draw *)

Module WizardView.
Import Types Wizard.

(** [steps] of [WorkflowWizard]. *)
Definition steps (st : WorkflowStep) : nat :=
  match st with
  | Input => 0
  | Config => 1
  | Processing => 2
  | Results => 3
  end.

(** [const progress = ((steps[step] + 1) / 4) * 100]. *)
Definition progress (st : WorkflowStep) : Q :=
  ((inject_Z (Z.of_nat (steps st + 1)) / (4 # 1)) * (100 # 1))%Q.

Definition stepTitles (st : WorkflowStep) : string :=
  match st with
  | Input => "Step 1: Input Customer Feedback"
  | Config => "Step 2: Configure AI Settings"
  | Processing => "Step 3: Processing Workflow"
  | Results => "Step 4: View Results"
  end.

(** The transitions of the wizard: from which step, by which event, to
    which step. *)
Inductive edge : WorkflowStep -> Event -> WorkflowStep -> Prop :=
| edge_input v :
    (10 <= Js.length (InputStep.f_content v))%nat ->
    edge Input (SubmitInput v) Config
| edge_back : edge Config ClickBack Input
| edge_generate p t : edge Config (SubmitConfig p t) Processing
| edge_complete i data :
    success data = true -> edge Processing (Settled i (Fulfilled data)) Results
| edge_cancel : edge Processing ClickCancel Config
| edge_go_back : edge Processing ClickGoBack Config
| edge_create_new : edge Results ClickCreateNew Input.

(** The cases of [handle]: when an event is for the step on screen, one
    callback runs. *)
Inductive fires (s : State) : Event -> State -> Prop :=
| fires_input v :
    step s = Input ->
    (10 <= Js.length (InputStep.f_content v))%nat ->
    fires s (SubmitInput v) (input_onNext (InputStep.onSubmit v) s)
| fires_back :
    step s = Config -> fires s ClickBack (config_onBack s)
| fires_generate p t :
    step s = Config ->
    fires s (SubmitConfig p t) (config_onNext (mkConfig p None t) s)
| fires_fulfilled q data :
    mounted s = Some q -> status q = Pending ->
    fires s (Settled (instance q) (Fulfilled data))
          (onSuccess data (set_status Succeeded None s))
| fires_failed q t :
    mounted s = Some q -> status q = Pending ->
    fires s (Settled (instance q) (Failed t))
          (onError t (set_status Errored (Some t) s))
| fires_cancel :
    step s = Processing -> isPending s = false -> fires s ClickCancel (onCancel s)
| fires_go_back :
    step s = Processing -> isError s = true -> fires s ClickGoBack (onCancel s)
| fires_create_new r :
    step s = Results -> result s = Some r -> fires s ClickCreateNew (onCreateNew s)
| fires_copy r :
    step s = Results -> result s = Some r -> fires s ClickCopy (copyToClipboard s)
| fires_written n :
    copying s = S n ->
    fires s (ClipboardSettled true)
          (toast (ToastSuccess "Copied to clipboard!") (setCopying n s))
| fires_not_written n :
    copying s = S n -> fires s (ClipboardSettled false) (setCopying n s).

(** The events of the user, as opposed to those of the network and of
    the clipboard. *)
Definition user_event (e : Event) : bool :=
  match e with
  | Settled _ _ | ClipboardSettled _ => false
  | _ => true
  end.

(** What the wizard keeps true of its state: a processing step is
    rendered exactly on the processing step, and its execution runs on the
    form data held; past the input step the content held has passed the form
    check; no model is ever chosen; on the results step a successful result
    is held. *)
Definition consistent (s : State) : Prop :=
  (step s = Processing <-> is_Some (mounted s))
  /\ (forall p, mounted s = Some p -> vars p = vars_of (formData s))
  /\ (step s <> Input ->
      (10 <= Js.length (content (input (formData s))))%nat)
  /\ model (formData s) = None
  /\ holds_success s.

Definition toast_text (t : Toast) : string :=
  match t with
  | ToastSuccess msg => msg
  | ToastError msg => msg
  end.

(** The icon in front of a pipeline step of [ProcessingStep]. *)
Inductive StepIcon := CheckIcon | SpinnerIcon | CircleIcon.

Definition isSuccess (p : ProcessingStep) : bool :=
  match status p with Succeeded => true | _ => false end.

Definition pending (p : ProcessingStep) : bool :=
  match status p with Pending => true | _ => false end.

Definition failed (p : ProcessingStep) : bool :=
  match status p with Errored => true | _ => false end.

(** [isCompleted ? check : isActive && index === 0 ? spinner : circle],
    with [isActive = isPending] and [isCompleted = isSuccess]. *)
Definition step_icon (p : ProcessingStep) (index : nat) : StepIcon :=
  if isSuccess p then CheckIcon
  else if pending p && (index =? 0)%nat then SpinnerIcon
  else CircleIcon.

(** The four pipeline steps, [steps.map((step, index) => ...)]. *)
Definition step_icons (p : ProcessingStep) : list StepIcon :=
  List.map (step_icon p) [0; 1; 2; 3]%nat.

(** The panel under [executeMutation.isError]:
    [Error: {executeMutation.error.message}]. *)
Definition error_panel (p : ProcessingStep) : option string :=
  if failed p
  then Some ("Error: " +:+
             default EmptyString (mutation_error p ≫= thrown_message))
  else None.

(** [disabled={executeMutation.isPending}] of "Cancel Workflow". *)
Definition cancel_disabled (p : ProcessingStep) : bool := pending p.

End WizardView.


(** * Properties *)

(** ** The query string *)

Module UrlFacts.
Import Url.


Lemma lacks_app c s t : lacks c (s +:+ t) = lacks c s && lacks c t.
Proof.
  induction s as [|a s IH]; simpl; [reflexivity|].
  rewrite IH. now rewrite andb_assoc.
Qed.

Ltac each_byte a := destruct a as [[] [] [] [] [] [] [] []].

Lemma encode_byte_lacks_amp a : lacks "&" (encode_byte a) = true.
Proof. each_byte a; reflexivity. Qed.

Lemma encode_byte_lacks_eq a : lacks "=" (encode_byte a) = true.
Proof. each_byte a; reflexivity. Qed.

Lemma encode_lacks_amp s : lacks "&" (encode s) = true.
Proof.
  induction s as [|a s IH]; simpl; [reflexivity|].
  now rewrite lacks_app, encode_byte_lacks_amp, IH.
Qed.

Lemma encode_lacks_eq s : lacks "=" (encode s) = true.
Proof.
  induction s as [|a s IH]; simpl; [reflexivity|].
  now rewrite lacks_app, encode_byte_lacks_eq, IH.
Qed.

Lemma decode_encode_byte a t :
  decode (encode_byte a +:+ t) = String a (decode t).
Proof. each_byte a; reflexivity. Qed.

Lemma decode_encode s : decode (encode s) = s.
Proof.
  induction s as [|a s IH]; simpl; [reflexivity|].
  now rewrite decode_encode_byte, IH.
Qed.

Lemma break_on_app c l r :
  lacks c l = true -> Js.break_on c (l +:+ String c r) = Some (l, r).
Proof.
  induction l as [|a l IH]; simpl.
  - now rewrite Ascii.eqb_refl.
  - intros H. apply andb_prop in H as [Ha Hl].
    apply negb_true_iff in Ha. rewrite Ha, (IH Hl). reflexivity.
Qed.

Lemma break_on_lacks c s : lacks c s = true -> Js.break_on c s = None.
Proof.
  induction s as [|a s IH]; [reflexivity|]. simpl. intros H.
  apply andb_prop in H as [Ha Hs]. apply negb_true_iff in Ha.
  now rewrite Ha, (IH Hs).
Qed.

Lemma split_on_single c l : lacks c l = true -> split_on c l = [l].
Proof.
  induction l as [|a l IH]; simpl; [reflexivity|].
  intros H. apply andb_prop in H as [Ha Hl].
  apply negb_true_iff in Ha. now rewrite Ha, (IH Hl).
Qed.

Lemma split_on_app c l r :
  lacks c l = true -> split_on c (l +:+ String c r) = l :: split_on c r.
Proof.
  induction l as [|a l IH]; simpl.
  - now rewrite Ascii.eqb_refl.
  - intros H. apply andb_prop in H as [Ha Hl].
    apply negb_true_iff in Ha. now rewrite Ha, (IH Hl).
Qed.

Lemma encode_pair_unfold p :
  encode_pair p = encode (fst p) +:+ String "=" (encode (snd p)).
Proof. reflexivity. Qed.

Lemma encode_pair_lacks_amp p : lacks "&" (encode_pair p) = true.
Proof.
  rewrite encode_pair_unfold, lacks_app. simpl.
  now rewrite !encode_lacks_amp.
Qed.

Lemma encode_pair_truthy p : Js.truthy (encode_pair p) = true.
Proof.
  unfold encode_pair. destruct (encode (fst p)); reflexivity.
Qed.

Lemma parse_encode_pair p : parse_pair (encode_pair p) = p.
Proof.
  unfold parse_pair. rewrite encode_pair_unfold.
  rewrite break_on_app by apply encode_lacks_eq.
  rewrite !decode_encode. now destruct p.
Qed.

Lemma split_toString p ps :
  split_on "&" (toString (p :: ps)) = List.map encode_pair (p :: ps).
Proof.
  revert p. induction ps as [|q ps IH]; intros p.
  - simpl. apply split_on_single, encode_pair_lacks_amp.
  - change (toString (p :: q :: ps))
      with (encode_pair p +:+ String "&" (toString (q :: ps))).
    rewrite split_on_app by apply encode_pair_lacks_amp.
    now rewrite IH.
Qed.

Lemma parse_toString params : parse (toString params) = params.
Proof.
  destruct params as [|p ps]; [reflexivity|].
  unfold parse. rewrite split_toString.
  induction (p :: ps) as [|x xs IH]; [reflexivity|].
  simpl. rewrite encode_pair_truthy. simpl.
  now rewrite parse_encode_pair, IH.
Qed.

(** *** The query of a URL *)

Lemma encode_byte_lacks_fragment a : lacks "#" (encode_byte a) = true.
Proof. each_byte a; reflexivity. Qed.

Lemma encode_lacks_fragment s : lacks "#" (encode s) = true.
Proof.
  induction s as [|a s IH]; simpl; [reflexivity|].
  now rewrite lacks_app, encode_byte_lacks_fragment, IH.
Qed.

Lemma toString_lacks_fragment params : lacks "#" (toString params) = true.
Proof.
  unfold toString.
  induction params as [|p [|q ps] IH]; [reflexivity| |].
  - cbn [List.map Js.join]. rewrite encode_pair_unfold, lacks_app. simpl.
    now rewrite !encode_lacks_fragment.
  - change (Js.join "&" (List.map encode_pair (p :: q :: ps)))
      with (encode_pair p +:+ String "&" (Js.join "&" (List.map encode_pair (q :: ps)))).
    rewrite lacks_app, encode_pair_unfold, lacks_app. simpl.
    rewrite !encode_lacks_fragment. exact IH.
Qed.

(** The query of [path?q], for a path without [?] and no [#] anywhere. *)
Lemma query_of_path path q :
  lacks "?" path = true -> lacks "#" path = true -> lacks "#" q = true ->
  query_of (path +:+ String "?" q) = q.
Proof.
  intros H1 H2 H3. unfold query_of, before_fragment.
  rewrite (break_on_lacks "#") by (rewrite lacks_app; simpl; now rewrite H2, H3).
  now rewrite break_on_app.
Qed.

Lemma query_of_toString path params :
  lacks "?" path = true -> lacks "#" path = true ->
  query_of (path +:+ String "?" (toString params)) = toString params.
Proof.
  intros H1 H2. apply query_of_path; trivial. apply toString_lacks_fragment.
Qed.

End UrlFacts.

(** ** Numbers and their numerals *)

Module NumberFacts.
Import Js.

Lemma append_cons a s t : String a s +:+ t = String a (s +:+ t).
Proof. reflexivity. Qed.

Lemma append_empty s : s +:+ EmptyString = s.
Proof.
  induction s as [|a s IH]; [reflexivity|]. now rewrite append_cons, IH.
Qed.

Lemma append_assoc s t u : (s +:+ t) +:+ u = s +:+ (t +:+ u).
Proof.
  induction s as [|a s IH]; [reflexivity|]. now rewrite !append_cons, IH.
Qed.

Lemma length_append s t :
  String.length (s +:+ t) = (String.length s + String.length t)%nat.
Proof. induction s as [|a s IH]; simpl; [reflexivity|]. now rewrite IH. Qed.

Lemma digits_append s t : Queries.all_chars is_digit (s +:+ t) = Queries.all_chars is_digit s && Queries.all_chars is_digit t.
Proof.
  induction s as [|a s IH]; simpl; [reflexivity|].
  now rewrite IH, andb_assoc.
Qed.

Lemma digits_zeros n : Queries.all_chars is_digit (zeros n) = true.
Proof. induction n as [|n IH]; simpl; [reflexivity|exact IH]. Qed.

Lemma digits_lack c s : is_digit c = false -> Queries.all_chars is_digit s = true -> Url.lacks c s = true.
Proof.
  intros Hc. induction s as [|a s IH]; simpl; [reflexivity|].
  intros H. apply andb_prop in H as [Ha Hs]. rewrite (IH Hs), andb_true_r.
  apply negb_true_iff. destruct (Ascii.eqb_spec a c) as [->|]; [|reflexivity].
  congruence.
Qed.

(** *** Digits of a number *)

Lemma digits_string_of_uint u : Queries.all_chars is_digit (NilEmpty.string_of_uint u) = true.
Proof. induction u; simpl; auto. Qed.

Lemma truthy_string_of_N n : truthy (string_of_N n) = true.
Proof.
  unfold string_of_N. destruct n as [|p]; [reflexivity|]. simpl.
  pose proof (DecimalN.Unsigned.of_to (N.pos p)) as H. simpl in H.
  destruct (Pos.to_uint p); [discriminate H|reflexivity..].
Qed.

Ltac eval_digit :=
  match goal with
  | |- context [digit_value ?c] =>
      let v := eval vm_compute in (digit_value c) in
      change (digit_value c) with v
  end; cbn [mbind option_bind].

Lemma read_digits_acc u p :
  read_digits (N.pos p) (NilEmpty.string_of_uint u)
  = Some (N.pos (Pos.of_uint_acc u p)).
Proof.
  revert p. induction u; intros p; cbn [NilEmpty.string_of_uint read_digits Pos.of_uint_acc];
    [reflexivity|..]; eval_digit; rewrite <- IHu; f_equal; lia.
Qed.

Lemma read_digits_of_uint u :
  read_digits 0 (NilEmpty.string_of_uint u) = Some (Pos.of_uint u).
Proof.
  induction u; cbn [NilEmpty.string_of_uint read_digits Pos.of_uint];
    [reflexivity|..]; eval_digit; [exact IHu|..]; apply read_digits_acc.
Qed.

Lemma read_string_of_N n : read_digits 0 (string_of_N n) = Some n.
Proof.
  unfold string_of_N. rewrite read_digits_of_uint.
  f_equal. apply DecimalN.Unsigned.of_to.
Qed.

Lemma read_natural_string_of_N n : read_natural (string_of_N n) = Some n.
Proof.
  unfold read_natural. now rewrite truthy_string_of_N, read_string_of_N.
Qed.

(** *** Reading digits *)

Lemma read_digits_append acc s t :
  read_digits acc (s +:+ t) = x ← read_digits acc s; read_digits x t.
Proof.
  revert acc. induction s as [|a s IH]; intros acc; simpl; [reflexivity|].
  destruct (digit_value a) as [d|]; simpl; [apply IH|reflexivity].
Qed.

Lemma read_digits_zeros acc n :
  read_digits acc (zeros n) = Some (acc * 10 ^ N.of_nat n)%N.
Proof.
  revert acc. induction n as [|n IH]; intros acc.
  - simpl. f_equal. lia.
  - cbn [zeros read_digits]. unfold digit_value. simpl. rewrite IH. f_equal.
    rewrite Nat2N.inj_succ, N.pow_succ_r'. lia.
Qed.

Lemma read_digits_total acc s :
  Queries.all_chars is_digit s = true -> exists v, read_digits acc s = Some v.
Proof.
  revert acc. induction s as [|a s IH]; intros acc; simpl; [eauto|].
  intros H. apply andb_prop in H as [Ha Hs]. unfold is_digit in Ha.
  destruct (digit_value a) as [d|]; [|discriminate]. simpl. now apply IH.
Qed.

(** *** Zeros at the end *)

Lemma strip_zeros_append s :
  s = strip_zeros s +:+ zeros (String.length s - String.length (strip_zeros s)).
Proof.
  induction s as [|a s IH]; [reflexivity|]. cbn [strip_zeros].
  destruct (strip_zeros s) as [|b t] eqn:E.
  - simpl in IH. rewrite Nat.sub_0_r in IH.
    destruct (Ascii.eqb_spec a "0") as [->|].
    + simpl. now rewrite IH at 1.
    + simpl. rewrite Nat.sub_0_r. now rewrite IH at 1.
  - cbn [String.append String.length] in *. rewrite Nat.sub_succ.
    now rewrite IH at 1.
Qed.

Lemma strip_zeros_length s :
  (String.length (strip_zeros s) <= String.length s)%nat.
Proof.
  induction s as [|a s IH]; simpl; [lia|].
  destruct (strip_zeros s); [destruct (Ascii.eqb a "0")|]; simpl in *; lia.
Qed.

Lemma digits_strip_zeros s : Queries.all_chars is_digit s = true -> Queries.all_chars is_digit (strip_zeros s) = true.
Proof.
  intros H. rewrite (strip_zeros_append s), digits_append in H.
  now apply andb_prop in H as [H _].
Qed.

(** *** Parts of a string *)

Lemma take_drop n s : take n s +:+ drop n s = s.
Proof.
  revert s. induction n as [|n IH]; intros [|a s]; try reflexivity.
  cbn [take drop]. now rewrite append_cons, IH.
Qed.

Lemma length_drop n s : String.length (drop n s) = (String.length s - n)%nat.
Proof.
  revert s. induction n as [|n IH]; intros [|a s]; simpl; try reflexivity.
  apply IH.
Qed.

Lemma digits_take n s : Queries.all_chars is_digit s = true -> Queries.all_chars is_digit (take n s) = true.
Proof.
  intros H. rewrite <- (take_drop n s), digits_append in H.
  now apply andb_prop in H as [H _].
Qed.

Lemma digits_drop n s : Queries.all_chars is_digit s = true -> Queries.all_chars is_digit (drop n s) = true.
Proof.
  intros H. rewrite <- (take_drop n s), digits_append in H.
  now apply andb_prop in H as [_ H].
Qed.

Lemma length_zeros n : String.length (zeros n) = n.
Proof. induction n as [|n IH]; simpl; [reflexivity|]. now rewrite IH. Qed.

Lemma truthy_append s t : truthy s = true -> truthy (s +:+ t) = true.
Proof. now destruct s. Qed.

Lemma first_digit s :
  Queries.all_chars is_digit s = true -> truthy s = true ->
  exists c rest, s = String c rest /\ is_digit c = true.
Proof.
  destruct s as [|c rest]; [discriminate|]. simpl. intros H _.
  apply andb_prop in H as [H _]. eauto.
Qed.

(** *** Reading a numeral back *)

Lemma read_exponent_text x :
  read_exponent (String (if (x <? 0)%Z then "-" else "+")%char
                        (string_of_N (Z.abs_N x))) = Some x.
Proof.
  destruct (Z.ltb_spec x 0); cbn [read_exponent];
    rewrite read_natural_string_of_N; cbn; f_equal; lia.
Qed.

(** A mantissa with the point after its first [j] digits. *)
Lemma read_pointed d j v x :
  Queries.all_chars is_digit d = true -> truthy d = true ->
  read_digits 0 d = Some v ->
  read_decimal (take j d +:+ String "." (drop j d) +:+ exponent_text x)
  = Some (v, (x - Z.of_nat (String.length d - j))%Z).
Proof.
  intros Hd Ht Hv. unfold read_decimal, exponent_text.
  rewrite <- append_assoc, UrlFacts.break_on_app.
  2:{ rewrite UrlFacts.lacks_app. cbn [Url.lacks].
      rewrite !digits_lack by (reflexivity || now apply digits_take
                               || now apply digits_drop). reflexivity. }
  rewrite UrlFacts.break_on_app by (apply digits_lack; [reflexivity|now apply digits_take]).
  rewrite take_drop, read_exponent_text. unfold read_natural.
  rewrite Ht, Hv. cbn. now rewrite length_drop.
Qed.

Lemma read_decimal_text d n v :
  Queries.all_chars is_digit d = true -> truthy d = true ->
  read_digits 0 d = Some v ->
  exists m e j,
    read_decimal (decimal_text d n) = Some (m, e)
    /\ (0 <= j)%Z
    /\ Z.of_N m = (Z.of_N v * 10 ^ j)%Z
    /\ (e + j = n - Z.of_nat (String.length d))%Z.
Proof.
  intros Hd Ht Hv. unfold decimal_text.
  assert (Hk : (0 < Z.of_nat (String.length d))%Z) by (destruct d; [discriminate|simpl; lia]).
  set (k := Z.of_nat (String.length d)) in *.
  destruct ((k <=? n) && (n <=? 21))%Z eqn:A.
  { (* the digits, then zeros *)
    apply andb_prop in A as [A1 A2]. apply Z.leb_le in A1.
    exists (v * 10 ^ N.of_nat (Z.to_nat (n - k)))%N, 0%Z, (n - k)%Z.
    split; [|split; [lia|split; [|lia]]].
    - unfold read_decimal.
      assert (D : Queries.all_chars is_digit (d +:+ zeros (Z.to_nat (n - k))) = true)
        by now rewrite digits_append, Hd, digits_zeros.
      rewrite !UrlFacts.break_on_lacks by (apply digits_lack; [reflexivity|exact D]).
      rewrite append_empty. unfold read_natural.
      rewrite truthy_append by exact Ht.
      rewrite read_digits_append, Hv. cbn. now rewrite read_digits_zeros.
    - rewrite N2Z.inj_mul, N2Z.inj_pow. f_equal. f_equal. lia. }
  destruct ((0 <? n) && (n <=? 21))%Z eqn:B.
  { (* a point inside the digits *)
    apply andb_prop in B as [B1 B2]. apply Z.ltb_lt in B1.
    assert (n < k)%Z.
    { destruct (Z.leb_spec k n); [|lia]. rewrite B2 in A. discriminate. }
    exists v, (n - k)%Z, 0%Z.
    split; [|split; [lia|split; [lia|lia]]].
    unfold read_decimal.
    assert (L : Url.lacks "e" (take (Z.to_nat n) d +:+ String "." (drop (Z.to_nat n) d)) = true).
    { rewrite UrlFacts.lacks_app. cbn [Url.lacks].
      rewrite !digits_lack by (reflexivity || now apply digits_take
                               || now apply digits_drop). reflexivity. }
    rewrite (UrlFacts.break_on_lacks _ _ L).
    rewrite UrlFacts.break_on_app by (apply digits_lack; [reflexivity|now apply digits_take]).
    rewrite take_drop. unfold read_natural. rewrite Ht, Hv. cbn.
    rewrite length_drop. do 2 f_equal. unfold k. lia. }
  destruct ((-6 <? n) && (n <=? 0))%Z eqn:C.
  { (* zeros before the digits *)
    apply andb_prop in C as [C1 C2]. apply Z.leb_le in C2.
    exists v, (n - k)%Z, 0%Z.
    split; [|split; [lia|split; [lia|lia]]].
    unfold read_decimal.
    assert (D : Queries.all_chars is_digit (zeros (Z.to_nat (- n)) +:+ d) = true)
      by now rewrite digits_append, Hd, digits_zeros.
    assert (L : Url.lacks "e" (String "0" (String "." (zeros (Z.to_nat (- n)) +:+ d))) = true).
    { cbn [Url.lacks]. now rewrite digits_lack. }
    rewrite (UrlFacts.break_on_lacks _ _ L).
    change (String "0" (String "." (zeros (Z.to_nat (- n)) +:+ d)))
      with ("0" +:+ String "." (zeros (Z.to_nat (- n)) +:+ d)).
    rewrite UrlFacts.break_on_app by reflexivity.
    unfold read_natural.
    change ("0" +:+ (zeros (Z.to_nat (- n)) +:+ d))
      with (zeros (S (Z.to_nat (- n))) +:+ d).
    rewrite truthy_append by reflexivity.
    rewrite read_digits_append, read_digits_zeros, N.mul_0_l. cbn. rewrite Hv. cbn.
    rewrite length_append, length_zeros. do 2 f_equal. unfold k. lia. }
  (* the exponent form *)
  exists v, (n - k)%Z, 0%Z.
  split; [|split; [lia|split; [lia|lia]]].
  destruct (Z.eqb_spec k 1) as [K|K].
  - unfold read_decimal, exponent_text.
    rewrite UrlFacts.break_on_app by (apply digits_lack; [reflexivity|exact Hd]).
    rewrite read_exponent_text.
    rewrite UrlFacts.break_on_lacks by (apply digits_lack; [reflexivity|exact Hd]).
    rewrite append_empty. unfold read_natural. rewrite Ht, Hv. cbn.
    do 2 f_equal. lia.
  - rewrite append_assoc, append_cons.
    change (String "." (drop 1 d +:+ exponent_text (n - 1)))
      with (String "." (drop 1 d) +:+ exponent_text (n - 1)).
    rewrite <- append_assoc. rewrite append_assoc.
    rewrite (read_pointed d 1 v (n - 1) Hd Ht Hv). do 2 f_equal. unfold k. lia.
Qed.

Lemma decimal_text_first d n :
  Queries.all_chars is_digit d = true -> truthy d = true ->
  exists c rest, decimal_text d n = String c rest /\ is_digit c = true.
Proof.
  intros Hd Ht. destruct (first_digit d Hd Ht) as (c & rest & -> & Hc).
  unfold decimal_text.
  destruct ((_ <=? n) && (n <=? 21))%Z; [rewrite append_cons; eauto|].
  destruct ((0 <? n) && (n <=? 21))%Z eqn:B.
  { apply andb_prop in B as [B _]. apply Z.ltb_lt in B.
    destruct (Z.to_nat n) as [|j] eqn:E; [lia|].
    cbn [take]. rewrite append_cons. eauto. }
  destruct ((-6 <? n) && (n <=? 0))%Z; [eauto|].
  destruct (_ =? 1)%Z; [rewrite append_cons; eauto|].
  cbn [take]. rewrite !append_cons. eauto.
Qed.

Lemma same_scaled v j z e e' :
  (0 <= j)%Z -> (0 <= z)%Z -> (e' + j = e + z)%Z ->
  (v * 10 ^ j * 10 ^ (e' - Z.min e' e) = v * 10 ^ z * 10 ^ (e - Z.min e' e))%Z.
Proof.
  intros Hj Hz H. rewrite <- !Z.mul_assoc, <- !Z.pow_add_r by lia.
  do 2 f_equal. lia.
Qed.

(** A number reads back from its rendering as the same number. *)
Lemma number_roundtrip t :
  exists t', number_of_string (number_toString t) = Some t' /\ same t' t.
Proof.
  destruct t as [|[]|m e]; [exists NaN|exists (Infinity true)
                           |exists (Infinity false)|]; try (now split).
  unfold number_toString.
  destruct (Z.eqb_spec m 0) as [->|Hm]; [exists (Decimal 0 0); now split|].
  set (all := string_of_N (Z.abs_N m)).
  set (d := strip_zeros all).
  set (z := (String.length all - String.length d)%nat).
  assert (Hall : Queries.all_chars is_digit all = true) by apply digits_string_of_uint.
  assert (Hd : Queries.all_chars is_digit d = true) by now apply digits_strip_zeros.
  assert (Happ : all = d +:+ zeros z) by apply strip_zeros_append.
  assert (Hread : read_digits 0 all = Some (Z.abs_N m)) by apply read_string_of_N.
  destruct (read_digits_total 0 d Hd) as [v Hv].
  assert (Hvz : Z.abs m = (Z.of_N v * 10 ^ Z.of_nat z)%Z).
  { assert (R : read_digits 0 (d +:+ zeros z) = Some (Z.abs_N m))
      by (rewrite <- Happ; exact Hread).
    rewrite read_digits_append, Hv in R. cbn in R.
    rewrite read_digits_zeros in R. injection R as Hread'.
    clear Hread. rename Hread' into Hread.
    rewrite <- N2Z.inj_abs_N, <- Hread, N2Z.inj_mul, N2Z.inj_pow.
    do 2 f_equal. lia. }
  assert (Ht : truthy d = true).
  { destruct d; [|reflexivity]. cbn in Hv. injection Hv as <-. lia. }
  assert (Hlen : Z.of_nat (String.length all)
                 = (Z.of_nat (String.length d) + Z.of_nat z)%Z).
  { pose proof (strip_zeros_length all). unfold z, d. lia. }
  destruct (read_decimal_text d (e + Z.of_nat (String.length all)) v Hd Ht Hv)
    as (m' & e' & j & Hr & Hj & Hm' & He').
  destruct (decimal_text_first d (e + Z.of_nat (String.length all)) Hd Ht)
    as (c & rest & Htext & Hc).
  assert (Hparse : forall negative,
            (if String.eqb (String c rest) "Infinity" then Some (Infinity negative)
             else '(m, e) ← read_decimal (String c rest);
                  Some (Decimal (if negative then - Z.of_N m else Z.of_N m)%Z e))
            = Some (Decimal (if negative then - Z.of_N m' else Z.of_N m')%Z e')).
  { intros negative. rewrite <- Htext, Hr.
    rewrite Htext. destruct (String.eqb_spec (String c rest) "Infinity") as [E|];
      [|reflexivity].
    injection E as -> _. discriminate Hc. }
  assert (Hsame : (Z.of_N v * 10 ^ j * 10 ^ (e' - Z.min e' e)
                   = Z.of_N v * 10 ^ Z.of_nat z * 10 ^ (e - Z.min e' e))%Z)
    by (apply same_scaled; lia).
  destruct (Z.ltb_spec m 0) as [Hneg|Hpos].
  - exists (Decimal (- Z.of_N m') e'). split.
    + unfold number_of_string. cbn [String.eqb Ascii.eqb]. cbn.
      rewrite Htext. apply (Hparse true).
    + assert (Em : m = (- (Z.of_N v * 10 ^ Z.of_nat z))%Z) by lia.
      cbn [same]. rewrite Hm', Em, !Z.mul_opp_l. now f_equal.
  - exists (Decimal (Z.of_N m') e'). split.
    + unfold number_of_string. rewrite Htext.
      assert (N1 : String.eqb (String c rest) "NaN" = false).
      { destruct (String.eqb_spec (String c rest) "NaN") as [E|]; [|reflexivity].
        injection E as -> _. discriminate Hc. }
      rewrite N1.
      assert (N2 : Ascii.eqb c "-" = false).
      { destruct (Ascii.eqb_spec c "-") as [->|]; [discriminate Hc|reflexivity]. }
      destruct c as [[] [] [] [] [] [] [] []]; try discriminate N2;
        apply (Hparse false).
    + assert (Em : m = (Z.of_N v * 10 ^ Z.of_nat z)%Z) by lia.
      cbn [same]. now rewrite Hm', Em.
Qed.

End NumberFacts.

(** ** The form schema *)

Module InputFacts.
Import Types InputStep.

Lemma trim_start_length s : (Js.length (Js.trim_start s) <= Js.length s)%nat.
Proof.
  induction s as [|a s IH]; simpl; [lia|].
  destruct (Js.is_space a); simpl; lia.
Qed.

Lemma trim_end_length s : (Js.length (Js.trim_end s) <= Js.length s)%nat.
Proof.
  induction s as [|a s IH]; simpl; [lia|].
  destruct (Js.trim_end s) as [|b t]; [destruct (Js.is_space a)|];
    simpl in *; lia.
Qed.

Lemma trim_length s : (Js.length (Js.trim s) <= Js.length s)%nat.
Proof.
  unfold Js.trim.
  pose proof (trim_end_length (Js.trim_start s)).
  pose proof (trim_start_length s). lia.
Qed.

Lemma inputSchema_short v :
  (Js.length (f_content v) < 10)%nat -> inputSchema v = ParseError [content_issue].
Proof.
  intros H. unfold inputSchema, check_content, min_content.
  apply Nat.ltb_lt in H. now rewrite H.
Qed.

Lemma inputSchema_long v :
  (10 <= Js.length (f_content v))%nat -> inputSchema v = ParseOk v.
Proof.
  intros H. unfold inputSchema, check_content, min_content.
  apply Nat.ltb_ge in H. now rewrite H.
Qed.

(** C4, as the sources have it.  The schema measures the content as typed,
    not trimmed: content shorter than 10 is rejected with the one issue
    [too_small] on [content], whose message names the minimum, the wizard
    stays where it is, and content of length 10 or more is accepted; in
    particular content whose trimmed length is 10 or more is accepted. *)
Theorem inputSchema_min_length v :
  ((Js.length (f_content v) < 10)%nat ->
     inputSchema v = ParseError [content_issue]
     /\ handleSubmit v = inr [content_issue]
     /\ forall s, Wizard.handle (Wizard.SubmitInput v) s = s)
  /\ ((10 <= Js.length (f_content v))%nat -> inputSchema v = ParseOk v)
  /\ ((10 <= Js.length (Js.trim (f_content v)))%nat -> inputSchema v = ParseOk v).
Proof.
  split; [|split].
  - intros H. pose proof (inputSchema_short v H) as E.
    assert (E' : handleSubmit v = inr [content_issue])
      by (unfold handleSubmit; now rewrite E).
    repeat split; trivial.
    intros s. unfold Wizard.handle. rewrite E'. now destruct (Wizard.step s).
  - apply inputSchema_long.
  - intros H. apply inputSchema_long.
    pose proof (trim_length (f_content v)). lia.
Qed.

Lemma inputSchema_min_length_witness :
  inputSchema (mkForm "too short" None None) = ParseError [content_issue]
  /\ inputSchema (mkForm "Customer wants to automate data entry" None None)
     = ParseOk (mkForm "Customer wants to automate data entry" None None).
Proof.
  split.
  - apply (proj1 (inputSchema_min_length (mkForm "too short" None None))).
    simpl. lia.
  - apply (proj1 (proj2 (inputSchema_min_length
             (mkForm "Customer wants to automate data entry" None None)))).
    simpl. lia.
Defined.

(** C4 as the specification states it fails: ten spaces have trimmed length
    0 and pass the schema. *)
Lemma blank_content_accepted :
  ~ (forall v, (Js.length (Js.trim (f_content v)) < 10)%nat ->
       exists issues, inputSchema v = ParseError issues).
Proof.
  intros H.
  destruct (H (mkForm "          " None None)) as [issues E].
  - simpl. lia.
  - discriminate E.
Qed.

End InputFacts.

(** ** The client *)

Module ApiFacts.
Import Types Api.

(** The reply of [apiRequest] when the session is known: one case per
    branch of the source. *)
Lemma apiRequest_with_session endpoint options w s :
  auth w = SessionIs s ->
  fst (apiRequest endpoint options w) =
    match network w (fetched w) (make_request w s endpoint options) with
    | FetchThrows x => Rejected (rethrow (ThrownRaw x))
    | Responds r =>
        if ok r
        then match body r with
             | BodyJson v => Resolved v
             | BodyInvalid e => Rejected (ThrownRaw (ErrorObject e))
             end
        else Rejected (ThrownAPI (error_of_response r))
    end.
Proof.
  intros Hs. unfold apiRequest. rewrite Hs.
  destruct (network _ _ _) as [r|x]; [|reflexivity].
  destruct (ok r); simpl; [destruct (body r)|]; reflexivity.
Qed.

Lemma apiRequest_log endpoint options w :
  log (snd (apiRequest endpoint options w)) =
    log w ++ GetSession ::
      match auth w with
      | SessionIs s => [Fetch (make_request w s endpoint options)]
      | SessionThrows _ => []
      end.
Proof.
  unfold apiRequest. destruct (auth w) as [s|x]; [|reflexivity].
  destruct (network _ _ _) as [r|x].
  - destruct (negb (ok r)); [|destruct (body r)]; simpl;
      now rewrite <- app_assoc.
  - simpl. now rewrite <- app_assoc.
Qed.

Lemma apiRequest_fetched endpoint options w :
  fetched (snd (apiRequest endpoint options w)) =
    match auth w with
    | SessionIs _ => S (fetched w)
    | SessionThrows _ => fetched w
    end.
Proof.
  unfold apiRequest. destruct (auth w) as [s|x]; [|reflexivity].
  destruct (network _ _ _) as [r|x]; [|reflexivity].
  destruct (negb (ok r)); [|destruct (body r)]; reflexivity.
Qed.

Lemma authorization_header s options :
  headers options = None ->
  build_headers s options !! "Authorization" =
    match s with
    | Some sess =>
        if Js.truthy (access_token sess)
        then Some ("Bearer " +:+ access_token sess) else None
    | None => None
    end.
Proof.
  intros H. unfold build_headers. rewrite H. simpl.
  assert (B : ((∅ : gmap string string) ∪ {["Content-Type" := "application/json"]})
                !! "Authorization" = None).
  { rewrite lookup_union, lookup_empty, lookup_singleton_ne by discriminate.
    reflexivity. }
  destruct s as [sess|]; [|exact B].
  destruct (Js.truthy (access_token sess)); [|exact B].
  apply lookup_insert_eq.
Qed.

(** A call of [apiRequest] without headers of its own: the session is
    asked for first, then one request is issued, with the [Authorization]
    header that the session calls for. *)
Lemma apiRequest_authorized endpoint options w :
  headers options = None ->
  match auth w with
  | SessionThrows _ =>
      log (snd (apiRequest endpoint options w)) = log w ++ [GetSession]
  | SessionIs s =>
      exists req,
        log (snd (apiRequest endpoint options w)) = log w ++ [GetSession; Fetch req]
        /\ req_headers req !! "Authorization" =
             match s with
             | Some sess =>
                 if Js.truthy (access_token sess)
                 then Some ("Bearer " +:+ access_token sess) else None
             | None => None
             end
        /\ forall r, network w (fetched w) req = Responds r -> ok r = false ->
             exists e, fst (apiRequest endpoint options w) = Rejected (ThrownAPI e)
                       /\ statusCode e = status r
  end.
Proof.
  intros H. rewrite apiRequest_log.
  destruct (auth w) as [s|x] eqn:Hs; [|reflexivity].
  exists (make_request w s endpoint options). split; [reflexivity|]. split.
  - simpl. now apply authorization_header.
  - intros r Hr Hok. rewrite (apiRequest_with_session _ _ _ _ Hs), Hr, Hok.
    eexists. split; [reflexivity|].
    unfold error_of_response.
    destruct (body r) as [v|e]; [destruct (read_detail v) as [[m d]|]|];
      reflexivity.
Qed.


(** C9.  Every call of the client asks the auth collaborator for the
    session before anything else and then issues one request; that request
    carries [Authorization: Bearer <token>] when the session has an access
    token and no [Authorization] header at all otherwise; and a response
    with a failure status comes back as an [APIRequestError] with that
    status.  When the auth collaborator fails, no request is issued. *)
Theorem client_call_authorization (c : ClientCall) (w : World) :
  match auth w with
  | SessionThrows _ => log (snd (call c w)) = log w ++ [GetSession]
  | SessionIs s =>
      exists req,
        log (snd (call c w)) = log w ++ [GetSession; Fetch req]
        /\ req_headers req !! "Authorization" =
             match s with
             | Some sess =>
                 if Js.truthy (access_token sess)
                 then Some ("Bearer " +:+ access_token sess) else None
             | None => None
             end
        /\ forall r, network w (fetched w) req = Responds r -> ok r = false ->
             exists e, fst (call c w) = Rejected (ThrownAPI e)
                       /\ statusCode e = status r
  end.
Proof.
  destruct c as [v|i providers]; simpl;
    unfold executeWorkflow, compareProviders;
    now apply apiRequest_authorized.
Qed.

Lemma client_call_authorization_witness :
  exists req,
    log (snd (call (Execute Samples.vars)
                (Samples.world_of Samples.signed_in (Responds Samples.unauthorized))))
      = [GetSession; Fetch req]
    /\ req_headers req !! "Authorization" = Some "Bearer eyJhbGciOi"
    /\ exists e,
         fst (call (Execute Samples.vars)
                (Samples.world_of Samples.signed_in (Responds Samples.unauthorized)))
           = Rejected (ThrownAPI e)
         /\ statusCode e = 401%Z.
Proof.
  destruct (client_call_authorization (Execute Samples.vars)
              (Samples.world_of Samples.signed_in (Responds Samples.unauthorized)))
    as (req & Hlog & Hauth & Hrej).
  exists req. split; [exact Hlog|]. split; [exact Hauth|].
  exact (Hrej Samples.unauthorized eq_refl eq_refl).
Defined.

(** ** Error bodies *)














(** ** Undecodable bodies and network failures *)

(** C5, as the sources have it.  A response with a failure status whose
    body is not JSON is thrown as an [APIRequestError] that keeps the status
    of the response, with the status text (or ["API request failed"]) as
    message; a [fetch] that fails without a response is thrown as an
    [APIRequestError] with status code 0, which no response has, so that the
    status code tells the two apart; and the parsed body of a response with a
    success status is returned as it is, whatever its shape. *)
Theorem undecodable_failure_keeps_status endpoint options w s :
  auth w = SessionIs s ->
  let reply := network w (fetched w) (make_request w s endpoint options) in
  let outcome := fst (apiRequest endpoint options w) in
  (forall r err,
     reply = Responds r -> ok r = false -> body r = BodyInvalid err ->
     outcome = Rejected (ThrownAPI
                 (mkError (if Js.truthy (statusText r) then statusText r
                           else "API request failed") (status r) None))
     /\ statusCode_of outcome = Some (status r)
     /\ (status r <> 0%Z -> statusCode_of outcome <> Some 0%Z))
  /\ (forall x,
        reply = FetchThrows x ->
        (exists m, outcome = Rejected (ThrownAPI (mkError m 0 None)))
        /\ statusCode_of outcome = Some 0%Z)
  /\ (forall r v,
        reply = Responds r -> ok r = true -> body r = BodyJson v ->
        outcome = Resolved v).
Proof.
  intros Hs reply outcome. subst reply outcome.
  rewrite (apiRequest_with_session _ _ _ _ Hs).
  split; [|split].
  - intros r err Hr Hok Hb. rewrite Hr, Hok.
    unfold error_of_response. rewrite Hb.
    split; [reflexivity|]. split; [reflexivity|].
    simpl. intros Hz [= E]. now apply Hz.
  - intros x Hx. rewrite Hx. destruct x as [m|]; simpl; eauto.
  - intros r v Hr Hok Hb. now rewrite Hr, Hok, Hb.
Qed.

Lemma undecodable_failure_keeps_status_witness :
  statusCode_of (fst (apiRequest "/api/v1/health" Samples.no_options
                        (Samples.world_of Samples.signed_in (Responds Samples.bad_gateway))))
    = Some 502%Z
  /\ statusCode_of (fst (apiRequest "/api/v1/health" Samples.no_options Samples.offline))
    = Some 0%Z.
Proof.
  split.
  - exact (proj1 (proj2 (proj1 (undecodable_failure_keeps_status "/api/v1/health"
             Samples.no_options
             (Samples.world_of Samples.signed_in (Responds Samples.bad_gateway))
             _ eq_refl) Samples.bad_gateway _ eq_refl eq_refl eq_refl))).
  - exact (proj2 (proj1 (proj2 (undecodable_failure_keeps_status "/api/v1/health"
             Samples.no_options Samples.offline _ eq_refl)) _ eq_refl)).
Defined.

(** C5 as the specification states it fails: a response with status 200
    whose body is not JSON does not come back as an error with status 200. *)
Lemma undecodable_success_loses_status :
  ~ (forall endpoint options w s r err,
       auth w = SessionIs s ->
       network w (fetched w) (make_request w s endpoint options) = Responds r ->
       body r = BodyInvalid err ->
       statusCode_of (fst (apiRequest endpoint options w)) = Some (status r)).
Proof.
  intros H.
  specialize (H "/api/v1/workflow/execute" Samples.no_options
                (Samples.world_of Samples.signed_in
                   (Responds (mkResponse 200 "OK" (BodyInvalid "Unexpected end of JSON input"))))
                _ _ _ eq_refl eq_refl eq_refl).
  discriminate H.
Qed.

(** ** One attempt for each execution *)

Lemma mutate_unfold v w : mutate v w = executeWorkflow v w.
Proof.
  unfold mutate, mutation_retry. simpl.
  destruct (executeWorkflow v w) as [[x|t] w']; reflexivity.
Qed.


(** C2, as the sources have it.  An execution makes at most one request,
    whatever comes back.  When that request fails without a response the
    mutation is rejected at once with an [APIRequestError] of status code 0
    and nothing is tried again; the processing step that waits for it shows
    the message in an error toast and enters its error state, where it stays:
    no other execution is started and nothing further settles it. *)
Theorem mutate_single_attempt v w :
  (attempts v w <= 1)%nat
  /\ forall s x,
       auth w = SessionIs s ->
       network w (fetched w)
         (make_request w s (execute_endpoint v) (post (RawInput_toJSON (input v))))
         = FetchThrows x ->
       attempts v w = 1%nat
       /\ exists m,
            fst (mutate v w) = Rejected (ThrownAPI (mkError m 0 None))
            /\ forall st p,
                 Wizard.mounted st = Some p ->
                 Wizard.status p = Wizard.Pending ->
                 let st' := Wizard.settle (Wizard.instance p)
                              (Wizard.Failed (ThrownAPI (mkError m 0 None))) st in
                 Wizard.isError st' = true
                 /\ Wizard.visible st' = Wizard.visible st
                 /\ Wizard.mounts st' = Wizard.mounts st
                 /\ Wizard.toasts st' =
                      Wizard.toasts st ++
                        [Wizard.ToastError
                           (if Js.truthy m then m else "Failed to execute workflow")]
                 /\ forall o, Wizard.settle (Wizard.instance p) o st' = st'.
Proof.
  unfold attempts. rewrite mutate_unfold. unfold executeWorkflow.
  rewrite apiRequest_fetched. split.
  - destruct (auth w); lia.
  - intros s x Hs Hx. rewrite Hs. split; [lia|].
    rewrite (apiRequest_with_session _ _ _ _ Hs), Hx.
    exists (match x with ErrorObject m => m | NotAnError => "Network error" end).
    split; [now destruct x|].
    intros st p Hp Hst. cbv zeta.
    unfold Wizard.settle. rewrite Hp, Nat.eqb_refl, Hst.
    unfold Wizard.onError, Wizard.set_status, Wizard.isError, Wizard.visible.
    rewrite Hp. simpl. rewrite Nat.eqb_refl.
    split; [reflexivity|]. split; [reflexivity|]. split; [reflexivity|].
    split; [reflexivity|]. intros o. now destruct o.
Qed.

Lemma mutate_single_attempt_witness :
  attempts Samples.vars_sent Samples.offline = 1%nat.
Proof.
  exact (proj1 (proj2 (mutate_single_attempt
           Samples.vars_sent Samples.offline)
           _ _ eq_refl eq_refl)).
Defined.

(** C2 as the specification states it fails: with a network that fails
    every request, three retries would take at least three requests; the
    client makes one. *)
Lemma offline_execution_not_retried :
  ~ (forall v w,
       (forall n req, exists x, network w n req = FetchThrows x) ->
       (exists s, auth w = SessionIs s) ->
       (3 <= attempts v w)%nat).
Proof.
  intros H.
  specialize (H Samples.vars_sent Samples.offline).
  assert (A : (3 <= 1)%nat).
  { apply H; [intros n req|]; eexists; reflexivity. }
  lia.
Qed.

(** ** The request of an execution *)

Lemma metadata_roundtrip m :
  metadata_of_fields (List.map (fun kv => (fst kv, Js.JStr (snd kv))) m) = Some m.
Proof.
  induction m as [|[k x] m IH]; simpl; [reflexivity|]. now rewrite IH.
Qed.

Lemma RawInput_roundtrip i : RawInput_ofJSON (RawInput_toJSON i) = Some i.
Proof.
  destruct i as [c [s|] [cid|] [m|]]; unfold RawInput_toJSON, metadata_toJSON;
    cbn; rewrite ?metadata_roundtrip; reflexivity.
Qed.

Lemma query_of_execute_endpoint v :
  Url.query_of (execute_endpoint v) = Url.toString (execute_params v).
Proof.
  now apply (UrlFacts.query_of_toString "/api/v1/workflow/execute").
Qed.

(** The query of the URL requested, for a base URL that has neither a
    query nor a fragment of its own. *)
Lemma query_of_request base path params :
  Url.lacks "?" base = true -> Url.lacks "#" base = true ->
  Url.lacks "?" path = true -> Url.lacks "#" path = true ->
  Url.query_of (base +:+ (path +:+ String "?" (Url.toString params)))
  = Url.toString params.
Proof.
  intros B1 B2 P1 P2. rewrite <- NumberFacts.append_assoc.
  apply UrlFacts.query_of_toString; rewrite UrlFacts.lacks_app;
    now apply andb_true_intro.
Qed.

Lemma get_execute_params v k :
  Url.get (execute_params v) k =
    if String.eqb k "provider"
    then Some (provider_name (default default_provider (provider v)))
    else if String.eqb k "temperature"
    then Some (Js.number_toString (default default_temperature (temperature v)))
    else if String.eqb k "model"
    then match model v with
         | Some m => if Js.truthy m then Some m else None
         | None => None
         end
    else None.
Proof.
  unfold execute_params, Url.get, Url.append.
  destruct (model v) as [m|]; [destruct (Js.truthy m)|]; simpl;
    repeat (destruct (String.eqb k _); try reflexivity).
Qed.

(** C8.  With a session to be had and a base URL without a query or a
    fragment of its own, an execution asks for the session and then sends one
    request, to the execute endpoint.  The query of the URL requested parses
    to [provider], [temperature] and, exactly when a non-empty model was
    given, [model], in this order and nothing else; [provider] reads back as
    the provider given ([google] by default), [temperature] reads back as the
    number given (0.7 by default), whatever number it is; and the body
    decodes to the input given. *)
Theorem execute_request_roundtrip v w s :
  auth w = SessionIs s ->
  Url.lacks "?" (API_URL w) = true -> Url.lacks "#" (API_URL w) = true ->
  let p := default default_provider (provider v) in
  let t := default default_temperature (temperature v) in
  let m := match model v with
           | Some m => if Js.truthy m then Some m else None
           | None => None
           end in
  exists req,
    log (snd (executeWorkflow v w)) = log w ++ [GetSession; Fetch req]
    /\ url req = API_URL w +:+ execute_endpoint v
    /\ let query := Url.parse (Url.query_of (url req)) in
       List.map fst query
       = "provider" :: "temperature" :: match m with Some _ => ["model"] | None => [] end
       /\ Url.get query "provider" ≫= provider_of_name = Some p
       /\ (exists t', Url.get query "temperature" ≫= Js.number_of_string = Some t'
                      /\ Js.same t' t)
       /\ Url.get query "model" = m
       /\ req_body req ≫= RawInput_ofJSON = Some (input v).
Proof.
  intros Hs B1 B2 p t m.
  exists (make_request w s (execute_endpoint v) (post (RawInput_toJSON (input v)))).
  split.
  { unfold executeWorkflow. now rewrite apiRequest_log, Hs. }
  split; [reflexivity|]. cbv zeta.
  assert (Q : Url.parse (Url.query_of
                (url (make_request w s (execute_endpoint v)
                        (post (RawInput_toJSON (input v))))))
              = execute_params v).
  { cbn [url make_request].
    change (execute_endpoint v)
      with ("/api/v1/workflow/execute" +:+ String "?" (Url.toString (execute_params v))).
    rewrite query_of_request by (trivial; reflexivity).
    apply UrlFacts.parse_toString. }
  rewrite Q, !get_execute_params. cbn [String.eqb Ascii.eqb Bool.eqb].
  split.
  { unfold execute_params, Url.append. subst m.
    destruct (model v) as [x|]; [destruct (Js.truthy x)|]; reflexivity. }
  split; [subst p; now destruct (default default_provider (provider v))|].
  split; [apply NumberFacts.number_roundtrip|].
  split; [reflexivity|].
  cbn. apply RawInput_roundtrip.
Qed.

Lemma execute_request_roundtrip_witness :
  exists req,
    log (snd (executeWorkflow Samples.vars Samples.offline))
    = [GetSession; Fetch req]
    /\ url req
       = "http://localhost:8000/api/v1/workflow/execute?provider=google&temperature=0.7"
    /\ Url.get (Url.parse (Url.query_of (url req))) "temperature"
         ≫= Js.number_of_string = Some (Js.Decimal 7 (-1)).
Proof.
  destruct (execute_request_roundtrip Samples.vars Samples.offline _
              eq_refl eq_refl eq_refl) as (req & H1 & H2 & _).
  exists req. split; [exact H1|]. split; [exact H2|].
  rewrite H2. reflexivity.
Defined.

End ApiFacts.

(** ** The wizard *)

Module WizardFacts.
Import Types Wizard.

Ltac break_match :=
  match goal with
  | |- context [match ?x with _ => _ end] => destruct x eqn:?
  | H : context [match ?x with _ => _ end] |- _ => destruct x eqn:?
  end.

Ltac unfold_handlers :=
  unfold handle, settle, onSuccess, onError, onComplete, onCancel, onCreateNew,
    input_onNext, config_onBack, config_onNext, set_status, isPending, isError,
    copyToClipboard, clipboard_settled, setCopying,
    setStep, setResult, setFormData, toast in *.


Lemma reachable_run es s : reachable s -> reachable (run es s).
Proof.
  revert s. induction es as [|e es IH]; intros s H; [exact H|].
  simpl. apply IH. now constructor.
Qed.

(** Every event leaves the rendered instance in place, removes it, or
    renders a new one, numbered by the count of instances so far. *)
Lemma handle_mounted e s q :
  mounted (handle e s) = Some q ->
  (mounts (handle e s) = mounts s
   /\ exists q0, mounted s = Some q0 /\ instance q = instance q0)
  \/ (mounts (handle e s) = S (mounts s) /\ instance q = mounts s).
Proof.
  unfold_handlers.
  repeat (break_match; simpl in *; try discriminate);
    intros H; try congruence; inversion H; subst; simpl; eauto;
    left; split; try reflexivity; eexists; split; try reflexivity; congruence.
Qed.

Lemma handle_mounts e s : (mounts s <= mounts (handle e s))%nat.
Proof.
  unfold_handlers. repeat (break_match; simpl in *; try lia).
Qed.

Lemma reachable_instances s :
  reachable s -> forall q, mounted s = Some q -> (instance q < mounts s)%nat.
Proof.
  induction 1 as [|e s Hs IH]; intros q Hq; [discriminate|].
  destruct (handle_mounted e s q Hq) as [(Hm & q0 & H0 & Hi)|(Hm & Hi)].
  - rewrite Hm, Hi. now apply IH.
  - lia.
Qed.

Lemma gone_handle a e s : gone a s -> gone a (handle e s).
Proof.
  intros [Hlt Hne]. split.
  - pose proof (handle_mounts e s). lia.
  - intros q Hq.
    destruct (handle_mounted e s q Hq) as [(_ & q0 & H0 & Hi)|(_ & Hi)].
    + rewrite Hi. now apply Hne.
    + lia.
Qed.

Lemma settle_gone a o s : gone a s -> settle a o s = s.
Proof.
  intros [_ Hne]. unfold settle.
  destruct (mounted s) as [q|]; [|reflexivity].
  destruct (Nat.eqb_spec (instance q) a) as [E|]; [|reflexivity].
  now destruct (Hne q eq_refl).
Qed.

Lemma run_gone a o es1 es2 s :
  gone a s -> run (es1 ++ Settled a o :: es2) s = run (es1 ++ es2) s.
Proof.
  revert s. induction es1 as [|e es1 IH]; intros s G; simpl.
  - unfold handle. rewrite (settle_gone a o s G). now destruct (step s).
  - apply IH. now apply gone_handle.
Qed.

Lemma gone_onCancel s p :
  reachable s -> mounted s = Some p -> gone (instance p) (onCancel s).
Proof.
  intros R Hp. pose proof (reachable_instances s R p Hp) as Hlt.
  unfold onCancel, setStep. split; simpl.
  - exact Hlt.
  - intros q Hq. discriminate.
Qed.

(** C1.  When the wizard's [onCancel] is called while a processing step is
    rendered, the wizard is back on the configuration step with its form
    data and result as they were, and the response to the execution that the
    cancelled step had started changes nothing, whenever it arrives and
    whatever it contains: the run of any later events is the same with that
    response as without it. *)
Theorem late_response_ignored s p :
  reachable s -> mounted s = Some p ->
  visible (onCancel s) = (Config, formData s, result s)
  /\ (forall o, handle (Settled (instance p) o) (onCancel s) = onCancel s)
  /\ forall es1 es2 o,
       run (es1 ++ Settled (instance p) o :: es2) (onCancel s)
       = run (es1 ++ es2) (onCancel s).
Proof.
  intros R Hp. pose proof (gone_onCancel s p R Hp) as G.
  split; [reflexivity|]. split.
  - intros o. exact (run_gone _ o [] [] _ G).
  - intros es1 es2 o. now apply run_gone.
Qed.


Lemma late_response_ignored_witness :
  Wizard.visible (Wizard.onCancel Samples.processing_state)
    = (Config, formData Samples.processing_state, None)
  /\ handle (Settled 0 (Fulfilled Samples.approved_result))
            (onCancel Samples.processing_state)
     = onCancel Samples.processing_state.
Proof.
  destruct (late_response_ignored Samples.processing_state
              {| instance := 0; vars := Samples.vars_sent; status := Pending;
                 mutation_error := None |}
              (reachable_run _ _ reachable_initial) eq_refl)
    as (H1 & H2 & _).
  split; [exact H1|exact (H2 (Fulfilled Samples.approved_result))].
Defined.

(** While its execution is pending, the processing step offers no way to
    cancel: the button is disabled and the error panel is not shown. *)
Lemma cancel_disabled_while_pending s :
  isPending s = true ->
  handle ClickCancel s = s /\ handle ClickGoBack s = s.
Proof.
  intros H. unfold handle, isError. unfold isPending in *.
  rewrite ?H. destruct (step s); split; try reflexivity;
  destruct (mounted s) as [q|]; try discriminate;
  destruct (status q); try discriminate; reflexivity.
Qed.

(** ** Outcomes of an execution *)

Lemma handle_Settled i o s : handle (Settled i o) s = settle i o s.
Proof. unfold handle. now destruct (step s). Qed.

(** C3 fails on a self-check rejection.  A result with [success] false
    is answered with one error toast, which shows the [error] of the result
    or, when there is none, ["Workflow failed"]; the rejection reason of the
    self-check is never read: the wizard stays on the processing step with
    the form data and result it had, the mutation counts as succeeded, and
    the state is the same for every failed result with the same [error],
    whatever its rejection reason. *)
Theorem rejection_reason_not_rendered s p d :
  mounted s = Some p -> status p = Pending -> success d = false ->
  let s' := handle (Settled (instance p) (Fulfilled d)) s in
  toasts s' = toasts s ++ [ToastError (Js.or_else (error d) "Workflow failed")]
  /\ visible s' = visible s
  /\ option_map status (mounted s') = Some Succeeded
  /\ forall d', success d' = false -> error d' = error d ->
       handle (Settled (instance p) (Fulfilled d')) s = s'.
Proof.
  intros Hp Hst Hd. cbv zeta. rewrite handle_Settled.
  assert (E : forall x, success x = false ->
            settle (instance p) (Fulfilled x) s
            = toast (ToastError (Js.or_else (error x) "Workflow failed"))
                    (set_status Succeeded None s)).
  { intros x Hx. unfold settle, onSuccess.
    now rewrite Hp, Nat.eqb_refl, Hst, Hx. }
  rewrite (E d Hd). unfold set_status. rewrite Hp.
  split; [reflexivity|]. split; [reflexivity|]. split; [reflexivity|].
  intros d' Hd' He. rewrite handle_Settled, (E d' Hd'), He.
  unfold set_status. now rewrite Hp.
Qed.

Lemma rejection_reason_not_rendered_witness :
  toasts (handle (Settled 0 (Fulfilled
            (Samples.rejected_with (Some Samples.accuracy_too_low))))
          Samples.processing_state)
    = [ToastError "Workflow failed"]
  /\ handle (Settled 0 (Fulfilled (Samples.rejected_with None)))
            Samples.processing_state
     = handle (Settled 0 (Fulfilled
                 (Samples.rejected_with (Some Samples.accuracy_too_low))))
              Samples.processing_state.
Proof.
  destruct (rejection_reason_not_rendered Samples.processing_state
              {| instance := 0; vars := Samples.vars_sent; status := Pending;
                 mutation_error := None |}
              (Samples.rejected_with (Some Samples.accuracy_too_low))
              eq_refl eq_refl eq_refl)
    as (H1 & _ & _ & H4).
  split; [exact H1|exact (H4 (Samples.rejected_with None) eq_refl eq_refl)].
Defined.

(** The outcomes that the processing step does tell apart. *)
Lemma onSuccess_cases data s :
  (success data = true ->
     visible (onSuccess data s) = (Results, formData s, Some data))
  /\ (success data = false ->
        visible (onSuccess data s) = visible s
        /\ toasts (onSuccess data s)
           = toasts s ++ [ToastError (Js.or_else (error data) "Workflow failed")]).
Proof.
  unfold onSuccess. split; intros H; rewrite H.
  - unfold onComplete, setStep, visible. simpl. now destruct (step s).
  - now split.
Qed.

(** ** The results step *)

Lemma holds_success_handle e s : holds_success s -> holds_success (handle e s).
Proof.
  unfold holds_success. intros IH. unfold_handlers.
  repeat (break_match; simpl in *; try discriminate; eauto);
    intros HS; try congruence; try (apply IH; congruence).
  all: destruct (IH eq_refl) as (r & Hr & _); discriminate Hr.
Qed.

(** C10.  In every state that the wizard can reach, being on the results
    step means holding a result, and that result has [success] true. *)
Theorem results_hold_success s :
  reachable s -> step s = Results ->
  exists r, result s = Some r /\ success r = true.
Proof.
  induction 1 as [|e s Hs IH]; [discriminate|].
  now apply holds_success_handle.
Qed.

Lemma results_hold_success_witness :
  exists r,
    result (handle (Settled 0 (Fulfilled Samples.approved_result))
                   Samples.processing_state) = Some r
    /\ success r = true.
Proof.
  exact (results_hold_success
           (handle (Settled 0 (Fulfilled Samples.approved_result))
                   Samples.processing_state)
           (reachable_handle _ _ (reachable_run _ _ reachable_initial))
           eq_refl).
Defined.

End WizardFacts.

(** ** The recommendation *)

Module AggregatorFacts.
Import Types Aggregator.

Lemma ranks_before_spec a b : ranks_before a b = true <-> no_later a b.
Proof.
  unfold ranks_before, no_later.
  destruct (Qeq_bool _ _) eqn:E.
  - apply Qeq_bool_iff in E. rewrite Qle_bool_iff. split.
    + intros H. right. now split.
    + intros [H|[_ H]]; [lra|exact H].
  - apply Qeq_bool_neq in E. rewrite Qle_bool_iff. split.
    + intros H. left. lra.
    + intros [H|[H _]]; [lra|contradiction].
Qed.

Lemma no_later_refl a : no_later a a.
Proof. unfold no_later. right. split; lra. Qed.

Lemma no_later_trans a b c : no_later a b -> no_later b c -> no_later a c.
Proof. unfold no_later. intros [H1|[H1 H1']] [H2|[H2 H2']]; lra. Qed.

Lemma no_later_total a b : ranks_before a b = false -> no_later b a.
Proof.
  intros H. destruct (ranks_before b a) eqn:E; [now apply ranks_before_spec|].
  exfalso. revert H E. unfold ranks_before.
  destruct (Qeq_bool (total_cost_usd (snd a)) _) eqn:E1;
  destruct (Qeq_bool (total_cost_usd (snd b)) _) eqn:E2;
  intros H1 H2;
  repeat match goal with
  | H : Qeq_bool _ _ = true |- _ => apply Qeq_bool_iff in H
  | H : Qeq_bool _ _ = false |- _ => apply Qeq_bool_neq in H
  | H : Qle_bool _ _ = false |- _ =>
      assert (~ _) by (intros C; apply Qle_bool_iff in C; rewrite C in H; discriminate H);
      clear H
  end; lra.
Qed.

Lemma In_insert_ranked x e l : In x (insert_ranked e l) <-> x = e \/ In x l.
Proof.
  induction l as [|y l IH]; simpl; [intuition congruence|].
  destruct (ranks_before e y); simpl; [intuition congruence|].
  rewrite IH. intuition congruence.
Qed.

Lemma In_ranking x r : In x (ranking r) <-> In x r /\ is_approved x = true.
Proof.
  unfold ranking. rewrite <- filter_In.
  induction (List.filter is_approved r) as [|y l IH]; simpl; [tauto|].
  rewrite In_insert_ranked, IH. intuition congruence.
Qed.

Lemma head_first_insert e l : head_first l -> head_first (insert_ranked e l).
Proof.
  destruct l as [|x l]; simpl.
  - intros _ y [<-|[]]. apply no_later_refl.
  - intros H. destruct (ranks_before e x) eqn:E.
    + intros y [<-|Hy]; [apply no_later_refl|].
      apply no_later_trans with x; [now apply ranks_before_spec|now apply H].
    + intros y [<-|Hy]; [apply no_later_refl|].
      apply In_insert_ranked in Hy as [->|Hy].
      * now apply no_later_total.
      * apply H. now right.
Qed.

Lemma head_first_ranking r : head_first (ranking r).
Proof.
  unfold ranking.
  induction (List.filter is_approved r) as [|y l IH]; simpl; [exact I|].
  now apply head_first_insert.
Qed.

(** C7.  The recommendation is made among the approved providers only: there is none
    exactly when no provider is approved, and a recommended provider is an
    approved entry that costs no more than any other approved entry, and
    among those of its cost takes no longer.  For the comparison of the
    specification it is [google], [anthropic] once [google] is not approved,
    and none when no provider is approved. *)
Theorem recommend_cheapest_approved (r : ParallelWorkflowResult) :
  (recommend r = None <-> forall e, In e r -> is_approved e = false)
  /\ (forall p, recommend r = Some p ->
        exists w, In (p, w) r /\ approved (self_check w) = true
          /\ forall e, In e r -> is_approved e = true -> no_later (p, w) e)
  /\ recommend (Samples.comparison true true true) = Some google
  /\ recommend (Samples.comparison true true false) = Some anthropic
  /\ recommend (Samples.comparison false false false) = None.
Proof.
  split; [|split; [|repeat split]].
  - unfold recommend. destruct (ranking r) as [|h t] eqn:E.
    + split; [intros _ e He|reflexivity].
      destruct (is_approved e) eqn:A; [|reflexivity].
      assert (In e (ranking r)) by now apply In_ranking.
      rewrite E in *. contradiction.
    + split; [discriminate|]. intros H.
      assert (Hh : In h (ranking r)) by (rewrite E; now left).
      apply In_ranking in Hh as [Hh A]. rewrite (H h Hh) in A. discriminate.
  - intros p. unfold recommend.
    pose proof (head_first_ranking r) as HF.
    destruct (ranking r) as [|[p' w] t] eqn:E; [discriminate|].
    intros [= <-]. exists w.
    assert (Hh : In (p', w) (ranking r)) by (rewrite E; now left).
    apply In_ranking in Hh as [Hh A]. repeat split; trivial.
    intros e He Ae. apply HF. rewrite <- E. now apply In_ranking.
Qed.

Lemma recommend_cheapest_approved_witness :
  exists w, In (google, w) (Samples.comparison true true true)
    /\ approved (self_check w) = true
    /\ forall e, In e (Samples.comparison true true true) ->
         is_approved e = true -> no_later (google, w) e.
Proof.
  exact (proj1 (proj2 (recommend_cheapest_approved (Samples.comparison true true true)))
           google eq_refl).
Defined.

End AggregatorFacts.

(** ** Routes *)

Module RouteFacts.
Import Middleware.

(** Two prefixes of one string: one is a prefix of the other. *)
Lemma startsWith_comparable s p q :
  startsWith s p = true -> startsWith s q = true ->
  startsWith p q = true \/ startsWith q p = true.
Proof.
  revert p q. induction s as [|a s IH]; intros [|b p] [|c q]; simpl;
    try discriminate; auto.
  intros H1 H2. apply andb_prop in H1 as [E1 H1]. apply andb_prop in H2 as [E2 H2].
  apply Ascii.eqb_eq in E1, E2. subst b c. rewrite Ascii.eqb_refl. simpl.
  now apply IH.
Qed.

(** X1.  A redirect is final: the path a visitor is sent to is one that the
    middleware lets the same visitor open. *)
Theorem redirect_settles session pathname target :
  middleware session pathname = Redirect target ->
  middleware session target = Next.
Proof.
  unfold middleware.
  destruct session as [s|]; simpl;
    destruct (protected pathname); simpl;
    destruct (String.eqb pathname "/login"); simpl;
    destruct (String.eqb pathname "/"); simpl;
    intros [= <-]; reflexivity.
Qed.

Lemma redirect_settles_witness :
  middleware None "/workflow/new" = Redirect "/login"
  /\ middleware None "/login" = Next.
Proof.
  split; [reflexivity|].
  exact (redirect_settles None "/workflow/new" "/login" eq_refl).
Defined.



End RouteFacts.

Module HeaderFacts.
Import Middleware Header.

Lemma exclusive p q pathname :
  startsWith p q = false -> startsWith q p = false ->
  startsWith pathname p = true -> startsWith pathname q = true -> False.
Proof.
  intros H1 H2 A B.
  destruct (RouteFacts.startsWith_comparable pathname p q A B); congruence.
Qed.

(** X3.  Whatever the path, at most one item of the navigation bar is drawn as
    active, and on the page of an item it is that item. *)
Theorem one_active_item pathname :
  (List.length (active pathname) <= 1)%nat
  /\ forall item, In item navigation -> active (href item) = [item].
Proof.
  split.
  - unfold active, navigation. cbn [List.filter]. unfold isActive. cbn [href].
    repeat match goal with
    | |- context [startsWith pathname ?h] =>
        destruct (startsWith pathname h) eqn:?
    end; cbn [List.length]; try lia; exfalso;
    match goal with
    | A : startsWith pathname ?p = true, B : startsWith pathname ?q = true |- _ =>
        lazymatch p with q => fail | _ =>
          exact (exclusive p q pathname eq_refl eq_refl A B) end
    end.
  - intros item H. simpl in H.
    repeat destruct H as [<-|H]; try reflexivity. contradiction.
Qed.

End HeaderFacts.

(** ** More of the client *)

Module ClientFacts.
Import Types Api.

(** X4.  The headers of a request: the session's [Authorization] comes before
    the caller's, the caller's headers come before the default
    [Content-Type], and nothing else is added. *)
Theorem headers_precedence s options k :
  let given := default ∅ (headers options) !! k in
  let base :=
    match given with
    | Some v => Some v
    | None => if String.eqb k "Content-Type" then Some "application/json" else None
    end in
  build_headers s options !! k =
    match s with
    | Some sess =>
        if Js.truthy (access_token sess) && String.eqb k "Authorization"
        then Some ("Bearer " +:+ access_token sess)
        else base
    | None => base
    end.
Proof.
  intros given base.
  assert (B : (default ∅ (headers options) ∪ {["Content-Type" := "application/json"]})
                !! k = base).
  { subst base given. rewrite lookup_union.
    destruct (default ∅ (headers options) !! k) as [v|]; simpl.
    - now destruct ({["Content-Type" := "application/json"]} !! k).
    - destruct (String.eqb_spec k "Content-Type") as [->|Hne].
      + now rewrite lookup_singleton_eq.
      + rewrite lookup_singleton_ne by congruence. reflexivity. }
  unfold build_headers. destruct s as [sess|]; [|exact B].
  destruct (Js.truthy (access_token sess)); simpl; [|exact B].
  destruct (String.eqb_spec k "Authorization") as [->|Hne].
  - apply lookup_insert_eq.
  - rewrite lookup_insert_ne by congruence. exact B.
Qed.

(** X5.  Every way a call of [apiRequest] can end.  It resolves only with the
    parsed body of a response with a success status.  It rejects with an
    [APIRequestError] of status code 0, no details and the message of what
    was thrown when the auth collaborator or [fetch] fails, and with the
    error built from the response when the status is a failure.  The only
    rejection that is not an [APIRequestError] is the parse error of a
    response with a success status. *)
Theorem apiRequest_outcomes endpoint options w :
  match fst (apiRequest endpoint options w) with
  | Resolved v =>
      exists s r,
        auth w = SessionIs s
        /\ network w (fetched w) (make_request w s endpoint options) = Responds r
        /\ ok r = true /\ body r = BodyJson v
  | Rejected (ThrownAPI e) =>
      (exists x,
         (auth w = SessionThrows x
          \/ exists s, auth w = SessionIs s
               /\ network w (fetched w) (make_request w s endpoint options)
                  = FetchThrows x)
         /\ e = mkError (Queries.exception_message x) 0 None)
      \/ (exists s r,
            auth w = SessionIs s
            /\ network w (fetched w) (make_request w s endpoint options) = Responds r
            /\ ok r = false /\ e = error_of_response r)
  | Rejected (ThrownRaw x) =>
      exists s r err,
        auth w = SessionIs s
        /\ network w (fetched w) (make_request w s endpoint options) = Responds r
        /\ ok r = true /\ body r = BodyInvalid err /\ x = ErrorObject err
  end.
Proof.
  destruct (auth w) as [s|x] eqn:Hs.
  - rewrite (ApiFacts.apiRequest_with_session _ _ _ _ Hs).
    destruct (network _ _ _) as [r|x] eqn:Hr.
    + destruct (ok r) eqn:Hok; [destruct (body r) as [v|err] eqn:Hb|].
      * exists s, r. auto.
      * exists s, r, err. auto.
      * right. exists s, r. auto.
    + assert (E : rethrow (ThrownRaw x)
                  = ThrownAPI (mkError (Queries.exception_message x) 0 None))
        by now destruct x.
      rewrite E. left. exists x. split; [right; exists s; auto|reflexivity].
  - assert (E : fst (apiRequest endpoint options w)
                = Rejected (ThrownAPI (mkError (Queries.exception_message x) 0 None))).
    { unfold apiRequest. rewrite Hs. now destruct x. }
    rewrite E. left. exists x. auto.
Qed.

(** *** The [detail] array *)



(** X7.  An error body whose [detail] is the empty string or the empty array
    gives an error with an empty message; the processing step then shows its
    own text in the toast. *)
Theorem empty_detail_generic_toast r fields s :
  body r = BodyJson (Js.JObj fields) ->
  Js.assoc "detail" fields = Some (Js.JStr EmptyString)
  \/ Js.assoc "detail" fields = Some (Js.JArr []) ->
  message (error_of_response r) = EmptyString
  /\ Wizard.toasts (Wizard.onError (ThrownAPI (error_of_response r)) s)
     = Wizard.toasts s ++ [Wizard.ToastError "Failed to execute workflow"].
Proof.
  intros Hb Hd.
  assert (E : message (error_of_response r) = EmptyString).
  { unfold error_of_response, read_detail. rewrite Hb. simpl.
    now destruct Hd as [-> | ->]. }
  split; [exact E|].
  unfold Wizard.onError, Wizard.thrown_message. simpl. now rewrite E.
Qed.

Lemma empty_detail_generic_toast_witness :
  Wizard.toasts
    (Wizard.onError
       (ThrownAPI (error_of_response
          (mkResponse 400 "Bad Request"
             (BodyJson (Js.JObj [("detail", Js.JArr [])])))))
       Wizard.initial)
  = [Wizard.ToastError "Failed to execute workflow"].
Proof.
  exact (proj2 (empty_detail_generic_toast
           (mkResponse 400 "Bad Request" (BodyJson (Js.JObj [("detail", Js.JArr [])])))
           _ Wizard.initial eq_refl (or_intror eq_refl))).
Defined.

End ClientFacts.

(** ** The queries of the hooks *)

Module QueryFacts.
Import Types.

Lemma all_chars_app ok s t :
  Queries.all_chars ok (s +:+ t) = Queries.all_chars ok s && Queries.all_chars ok t.
Proof.
  induction s as [|a s IH]; simpl; [reflexivity|].
  now rewrite IH, andb_assoc.
Qed.

Lemma encode_byte_chars a :
  Queries.all_chars Queries.query_char (Url.encode_byte a) = true.
Proof. destruct a as [[] [] [] [] [] [] [] []]; reflexivity. Qed.

Lemma encode_chars s : Queries.all_chars Queries.query_char (Url.encode s) = true.
Proof.
  induction s as [|a s IH]; simpl; [reflexivity|].
  now rewrite all_chars_app, encode_byte_chars, IH.
Qed.

Lemma encode_pair_chars p :
  Queries.all_chars Queries.query_char (Url.encode_pair p) = true.
Proof.
  rewrite UrlFacts.encode_pair_unfold, all_chars_app. simpl.
  now rewrite !encode_chars.
Qed.

Lemma toString_chars params :
  Queries.all_chars Queries.query_char (Url.toString params) = true.
Proof.
  unfold Url.toString.
  induction params as [|p [|q ps] IH]; [reflexivity|apply encode_pair_chars|].
  change (Js.join "&" (List.map Url.encode_pair (p :: q :: ps)))
    with (Url.encode_pair p +:+ String "&" (Js.join "&" (List.map Url.encode_pair (q :: ps)))).
  rewrite all_chars_app, encode_pair_chars. simpl. exact IH.
Qed.

Lemma query_of_compare_endpoint providers :
  Url.query_of (Queries.compare_endpoint providers)
  = Url.toString (Api.compare_params providers).
Proof.
  now apply (UrlFacts.query_of_toString "/api/v1/workflow/execute-parallel").
Qed.

Lemma query_of_history_endpoint page limit filters :
  Url.query_of (Queries.history_endpoint page limit filters)
  = Url.toString (Queries.history_params page limit filters).
Proof. now apply (UrlFacts.query_of_toString "/api/v1/workflows"). Qed.

(** X8.  Whatever the values are, the query string of an endpoint that a hook
    builds consists of letters, digits and the characters [* - . _ + % = &]
    only: no value can bring a space, a [#], a [?] or a raw delimiter into
    the URL. *)
Theorem endpoint_query_characters :
  (forall v, Queries.all_chars Queries.query_char
               (Url.query_of (Api.execute_endpoint v)) = true)
  /\ (forall providers, Queries.all_chars Queries.query_char
               (Url.query_of (Queries.compare_endpoint providers)) = true)
  /\ (forall page limit filters, Queries.all_chars Queries.query_char
               (Url.query_of (Queries.history_endpoint page limit filters)) = true).
Proof.
  split; [|split]; intros.
  - rewrite ApiFacts.query_of_execute_endpoint. apply toString_chars.
  - rewrite query_of_compare_endpoint. apply toString_chars.
  - rewrite query_of_history_endpoint. apply toString_chars.
Qed.

Lemma provider_name_roundtrip p : provider_of_name (provider_name p) = Some p.
Proof. now destruct p. Qed.

(** X9.  The query of a comparison parses back to one [providers] entry for
    each provider asked for, in the order asked, [openai] and [anthropic]
    when none is given; and the hook sends it to the parallel endpoint with
    the input as body. *)
Theorem compare_query_roundtrip i providers w :
  let ps := default [openai; anthropic] providers in
  let query := Url.parse (Url.query_of (Queries.compare_endpoint providers)) in
  query = List.map (fun p => ("providers", provider_name p)) ps
  /\ List.map (fun kv => provider_of_name (snd kv)) query = List.map Some ps
  /\ Api.compareProviders i providers w
     = Api.apiRequest (Queries.compare_endpoint providers)
                      (Api.post (Api.RawInput_toJSON i)) w.
Proof.
  intros ps query.
  assert (E : query = List.map (fun p => ("providers", provider_name p)) ps).
  { subst query.
    now rewrite query_of_compare_endpoint, UrlFacts.parse_toString. }
  split; [exact E|]. split; [|reflexivity].
  rewrite E, List.map_map. simpl.
  apply List.map_ext. intros p. apply provider_name_roundtrip.
Qed.

(** X10.  The query of the history hook parses back to what it was built from:
    [page] and [limit] (1 and 20 by default) always, and [provider],
    [status] and [source] exactly when the filter is there and, for
    [source], not empty. *)
Theorem history_query_roundtrip page limit filters :
  let query :=
    Url.parse (Url.query_of (Queries.history_endpoint page limit filters)) in
  query = Queries.history_params page limit filters
  /\ Url.get query "page"
     = Some (Js.number_toString (default (Js.Decimal 1 0) page))
  /\ Url.get query "limit"
     = Some (Js.number_toString (default (Js.Decimal 20 0) limit))
  /\ Url.get query "provider" = provider_name <$> (filters ≫= Queries.provider)
  /\ Url.get query "status"
     = Queries.status_name <$> (filters ≫= Queries.status)
  /\ Url.get query "source"
     = match filters ≫= Queries.source with
       | Some src => if Js.truthy src then Some src else None
       | None => None
       end.
Proof.
  intros query. subst query.
  rewrite query_of_history_endpoint, UrlFacts.parse_toString.
  split; [reflexivity|].
  unfold Queries.history_params, Url.get.
  destruct filters as [[[p|] [st|] [src|]]|]; simpl;
    try destruct p; try destruct st; try destruct (Js.truthy src);
    repeat split; reflexivity.
Qed.

(** X11.  Every call of the client is a [POST] to the API's base URL followed by
    the endpoint, declared as JSON, whose body decodes to the input of the
    call. *)
Theorem client_request_shape c w s :
  Api.auth w = Api.SessionIs s ->
  exists req,
    Api.log (snd (Api.call c w)) = Api.log w ++ [Api.GetSession; Api.Fetch req]
    /\ Api.url req = Api.API_URL w +:+ Queries.call_endpoint c
    /\ Js.truthy (Api.API_URL w) = true
    /\ Api.req_method req = Some "POST"
    /\ Api.req_headers req !! "Content-Type" = Some "application/json"
    /\ Api.req_body req ≫= Api.RawInput_ofJSON = Some (Queries.call_input c).
Proof.
  intros Hs.
  exists (Api.make_request w s (Queries.call_endpoint c)
            (Api.post (Api.RawInput_toJSON (Queries.call_input c)))).
  split.
  { destruct c; simpl; unfold Api.executeWorkflow, Api.compareProviders;
      rewrite ApiFacts.apiRequest_log, Hs; reflexivity. }
  split; [reflexivity|]. split.
  { unfold Api.API_URL, Js.or_else.
    destruct (Api.env_api_url w) as [u|]; [|reflexivity].
    now destruct (Js.truthy u) eqn:E. }
  split; [reflexivity|]. split.
  { simpl. unfold Api.build_headers. simpl.
    assert (B : ((∅ : gmap string string) ∪ {["Content-Type" := "application/json"]})
                  !! "Content-Type" = Some "application/json").
    { rewrite lookup_union, lookup_empty, lookup_singleton_eq. reflexivity. }
    destruct s as [sess|]; [|exact B].
    destruct (Js.truthy (Api.access_token sess)); [|exact B].
    rewrite lookup_insert_ne by discriminate. exact B. }
  simpl. apply ApiFacts.RawInput_roundtrip.
Qed.

Lemma client_request_shape_witness :
  exists req,
    Api.log (snd (Api.call (Api.Compare Samples.raw_input None) Samples.offline))
      = [Api.GetSession; Api.Fetch req]
    /\ Api.url req
       = "http://localhost:8000/api/v1/workflow/execute-parallel?providers=openai&providers=anthropic"
    /\ Api.req_method req = Some "POST".
Proof.
  destruct (client_request_shape (Api.Compare Samples.raw_input None)
              Samples.offline _ eq_refl) as (req & H1 & H2 & _ & H4 & _).
  exists req. split; [exact H1|]. split; [exact H2|exact H4].
Defined.

Lemma safe_lacks_fragment s :
  Queries.all_chars Url.query_safe s = true -> Url.lacks "#" s = true.
Proof.
  induction s as [|a s IH]; simpl; [reflexivity|].
  intros H. apply andb_prop in H as [Ha Hs]. rewrite (IH Hs), andb_true_r.
  apply negb_true_iff. destruct (Ascii.eqb_spec a "#") as [->|]; [|reflexivity].
  discriminate Ha.
Qed.

(** X12.  The run id of [useWorkflowById] goes into the path as it is, with
    no encoding.  For a run id without [?] and [#] the URL has no query; but
    what follows a [?] in the run id is the query of the URL requested, for
    every text made of characters that the URL parser takes as they are. *)
Theorem run_id_not_encoded runId rest :
  Url.lacks "?" runId = true -> Url.lacks "#" runId = true ->
  Queries.all_chars Url.query_safe rest = true ->
  Url.query_of (Queries.workflowById_endpoint runId) = EmptyString
  /\ Url.query_of (Queries.workflowById_endpoint (runId +:+ String "?" rest))
     = rest.
Proof.
  intros H1 H2 H3. unfold Queries.workflowById_endpoint. split.
  - unfold Url.query_of, Url.before_fragment.
    rewrite (UrlFacts.break_on_lacks "#")
      by (rewrite UrlFacts.lacks_app, H2; reflexivity).
    now rewrite UrlFacts.break_on_lacks
      by (rewrite UrlFacts.lacks_app, H1; reflexivity).
  - rewrite <- NumberFacts.append_assoc.
    apply UrlFacts.query_of_path;
      rewrite ?UrlFacts.lacks_app, ?H1, ?H2; trivial.
    now apply safe_lacks_fragment.
Qed.

Lemma run_id_not_encoded_witness :
  Url.query_of (Queries.workflowById_endpoint "42?debug=1") = "debug=1".
Proof.
  exact (proj2 (run_id_not_encoded "42" "debug=1" eq_refl eq_refl eq_refl)).
Defined.

End QueryFacts.

(** ** What the input step hands on *)

Module SubmitFacts.
Import Types InputStep.

(** X13.  What the input step hands to the wizard when the form passes: the
    content as typed, of length 10 or more; a source that is never empty,
    ["manual"] when the form has none; a customer id only when one was
    entered; no metadata.  The request body then has [content] and [source],
    and [customer_id] only when one was entered. *)
Theorem submitted_input v raw :
  handleSubmit v = inl raw ->
  content raw = f_content v
  /\ (10 <= Js.length (content raw))%nat
  /\ source raw = Some (if Js.truthy (default EmptyString (f_source v))
                        then default EmptyString (f_source v) else "manual")
  /\ customer_id raw = (if Js.truthy (default EmptyString (f_customer_id v))
                        then f_customer_id v else None)
  /\ metadata raw = None
  /\ exists src,
       source raw = Some src /\ Js.truthy src = true
       /\ Api.RawInput_toJSON raw
          = Js.JObj (("content", Js.JStr (f_content v))
                     :: ("source", Js.JStr src)
                     :: match customer_id raw with
                        | Some c => [("customer_id", Js.JStr c)]
                        | None => []
                        end).
Proof.
  unfold handleSubmit, inputSchema, check_content.
  destruct (Nat.ltb_spec (Js.length (f_content v)) min_content) as [|Hlen];
    [discriminate|].
  intros [= <-]. unfold onSubmit. simpl.
  split; [reflexivity|]. split; [exact Hlen|].
  split; [now destruct (f_source v) as [[|a s]|]|].
  split; [now destruct (f_customer_id v) as [[|a s]|]|].
  split; [reflexivity|].
  eexists. split; [reflexivity|]. split.
  - now destruct (f_source v) as [[|a s]|].
  - unfold Api.RawInput_toJSON. simpl.
    now destruct (f_customer_id v) as [[|a s]|].
Qed.

Lemma submitted_input_witness :
  Api.RawInput_toJSON (onSubmit (mkForm Samples.feedback (Some EmptyString) (Some EmptyString)))
  = Js.JObj [("content", Js.JStr Samples.feedback); ("source", Js.JStr "manual")].
Proof.
  destruct (submitted_input (mkForm Samples.feedback (Some EmptyString) (Some EmptyString))
              _ eq_refl) as (_ & _ & _ & _ & _ & src & H1 & _ & H3).
  injection H1 as <-. exact H3.
Defined.

End SubmitFacts.

(** ** The temperature slider *)

Module SliderFacts.
Import Types.

(** X14.  Every temperature that the slider can give, from 0 to 2 in steps of
    0.1, is printed into the query so that it reads back as the same
    number. *)
Theorem slider_temperature_roundtrip k v :
  (k <= ConfigStep.slider_positions)%nat ->
  Api.temperature v = Some (ConfigStep.slider_value k) ->
  Url.get (Url.parse (Url.query_of (Api.execute_endpoint v))) "temperature"
    ≫= Js.number_of_string
  = Some (ConfigStep.slider_value k).
Proof.
  intros Hk Ht.
  rewrite ApiFacts.query_of_execute_endpoint, UrlFacts.parse_toString.
  rewrite ApiFacts.get_execute_params, Ht. cbn [String.eqb Ascii.eqb Bool.eqb default].
  unfold ConfigStep.slider_positions in Hk.
  do 21 (destruct k as [|k]; [vm_compute; reflexivity|]). lia.
Qed.

Lemma slider_temperature_roundtrip_witness :
  Url.get (Url.parse (Url.query_of
     (Api.execute_endpoint
        (Api.mkVars Samples.raw_input (Some anthropic) None
                    (Some (ConfigStep.slider_value 13))))))
     "temperature"
    ≫= Js.number_of_string
  = Some (Js.Decimal 13 (-1)).
Proof.
  refine (slider_temperature_roundtrip 13
            (Api.mkVars Samples.raw_input (Some anthropic) None
                        (Some (ConfigStep.slider_value 13))) _ eq_refl).
  unfold ConfigStep.slider_positions. lia.
Defined.

End SliderFacts.

(** ** More of the wizard *)

Module FlowFacts.
Import Types Wizard WizardView.

Lemma handleSubmit_inl v raw :
  InputStep.handleSubmit v = inl raw ->
  raw = InputStep.onSubmit v /\ (10 <= Js.length (InputStep.f_content v))%nat.
Proof.
  unfold InputStep.handleSubmit, InputStep.inputSchema, InputStep.check_content.
  destruct (Nat.ltb_spec (Js.length (InputStep.f_content v)) InputStep.min_content);
    [discriminate|].
  intros [= <-]. now split.
Qed.

Lemma handle_fires e s : handle e s = s \/ fires s e (handle e s).
Proof.
  destruct e as [v| |p t|i o| | | | |written].
  - unfold handle. destruct (step s) eqn:E; auto.
    destruct (InputStep.handleSubmit v) as [raw|] eqn:H; auto.
    apply handleSubmit_inl in H as [-> Hlen]. right. now constructor.
  - unfold handle. destruct (step s) eqn:E; auto. right. now constructor.
  - unfold handle. destruct (step s) eqn:E; auto. right. now constructor.
  - rewrite WizardFacts.handle_Settled. unfold settle.
    destruct (mounted s) as [q|] eqn:Hq; auto.
    destruct (Nat.eqb_spec (instance q) i) as [<-|]; auto.
    destruct (status q) eqn:Hst; auto.
    destruct o as [data|t]; right; now constructor.
  - unfold handle. destruct (step s) eqn:E; auto.
    destruct (isPending s) eqn:P; auto. right. now constructor.
  - unfold handle. destruct (step s) eqn:E; auto.
    destruct (isError s) eqn:P; auto. right. now constructor.
  - unfold handle. destruct (step s) eqn:E; auto.
    destruct (result s) as [r|] eqn:R; auto. right. now apply fires_create_new with r.
  - unfold handle. destruct (step s) eqn:E; auto.
    destruct (result s) as [r|] eqn:R; auto. right. now apply fires_copy with r.
  - assert (E : handle (ClipboardSettled written) s = clipboard_settled written s)
      by (unfold handle; now destruct (step s)).
    rewrite E. unfold clipboard_settled.
    destruct (copying s) as [|n] eqn:C; auto.
    right. destruct written; now constructor.
Qed.

Lemma consistent_initial : consistent initial.
Proof.
  unfold consistent, holds_success. simpl.
  repeat split; try discriminate; try congruence.
  intros [x Hx]. discriminate.
Qed.

Ltac settle_goals :=
  repeat split; simpl; try discriminate; try congruence; eauto;
  try (intros [? ?]; discriminate);
  try (intros ? [= <-]; simpl; congruence).

Lemma consistent_fires s e s' : consistent s -> fires s e s' -> consistent s'.
Proof.
  intros (Hm & Hv & Hc & Hmod & Hr) F. unfold consistent, holds_success in *.
  assert (Hlen : step s <> Input ->
            (10 <= Js.length (content (input (formData s))))%nat) by exact Hc.
  destruct F as [v Hs Hlen'|Hs|p t Hs|q data Hq Hst|q t Hq Hst|Hs Hp|Hs Hp|r Hs Hres
                |r Hs Hres|n Hn|n Hn].
  - unfold input_onNext, setStep, setFormData. simpl. settle_goals.
  - unfold config_onBack, setStep. rewrite ?Hs. simpl. settle_goals.
  - unfold config_onNext, setStep, setFormData. simpl. rewrite ?Hs. simpl.
    specialize (Hlen ltac:(congruence)). settle_goals.
  - assert (Hproc : step s = Processing) by (apply Hm; eauto).
    specialize (Hv q Hq). specialize (Hlen ltac:(congruence)).
    unfold onSuccess, onComplete, setStep, setResult, toast, set_status.
    rewrite Hq. destruct (success data) eqn:Hd; simpl; rewrite ?Hproc; simpl;
      settle_goals.
  - assert (Hproc : step s = Processing) by (apply Hm; eauto).
    specialize (Hv q Hq). specialize (Hlen ltac:(congruence)).
    unfold onError, toast, set_status. rewrite Hq. simpl. settle_goals.
  - unfold onCancel, setStep. rewrite ?Hs. simpl.
    specialize (Hlen ltac:(congruence)). settle_goals.
  - unfold onCancel, setStep. rewrite ?Hs. simpl.
    specialize (Hlen ltac:(congruence)). settle_goals.
  - unfold onCreateNew, setStep, setResult, setFormData. simpl. rewrite ?Hs. simpl.
    settle_goals.
  - exact (conj Hm (conj Hv (conj Hc (conj Hmod Hr)))).
  - exact (conj Hm (conj Hv (conj Hc (conj Hmod Hr)))).
  - exact (conj Hm (conj Hv (conj Hc (conj Hmod Hr)))).
Qed.

Lemma reachable_consistent s : reachable s -> consistent s.
Proof.
  induction 1 as [|e s R IH]; [apply consistent_initial|].
  destruct (handle_fires e s) as [->|F]; [exact IH|].
  now apply consistent_fires with s e.
Qed.


Lemma edge_progress a e b :
  edge a e b ->
  (progress b == progress a + (25 # 1)
   \/ progress b == progress a - (25 # 1)
   \/ progress b == progress a - (75 # 1))%Q.
Proof.
  destruct 1; [left|right; left|left|left|right; left|right; left|right; right];
    reflexivity.
Qed.

(** X15.  The wizard moves along its six transitions only: input to
    configuration by a form that passes, configuration back to input or on
    to processing, processing back to configuration by cancelling or on to
    results by a successful result, results to input by starting anew; the
    progress bar moves by a quarter each time and falls back to the first
    quarter from the last. *)
Theorem wizard_edges e s :
  reachable s ->
  step (handle e s) = step s
  \/ (edge (step s) e (step (handle e s))
      /\ (progress (step (handle e s)) == progress (step s) + (25 # 1)
          \/ progress (step (handle e s)) == progress (step s) - (25 # 1)
          \/ progress (step (handle e s)) == progress (step s) - (75 # 1))%Q).
Proof.
  intros R. destruct (reachable_consistent s R) as (Hm & _).
  assert (E : step (handle e s) = step s \/ edge (step s) e (step (handle e s))).
  { destruct (handle_fires e s) as [->|F]; [now left|].
    destruct F as [v Hs Hlen|Hs|p t Hs|q data Hq Hst|q t Hq Hst|Hs Hp|Hs Hp|r Hs Hres
                |r Hs Hres|n Hn|n Hn].
    - right. rewrite Hs. now constructor.
    - right. rewrite Hs. unfold config_onBack, setStep. simpl. constructor.
    - right. rewrite Hs. unfold config_onNext, setStep, setFormData. simpl.
      rewrite Hs. constructor.
    - assert (Hproc : step s = Processing) by (apply Hm; eauto).
      unfold onSuccess. destruct (success data) eqn:Hd.
      + right. rewrite Hproc. unfold onComplete, setStep. simpl. now constructor.
      + left. unfold toast, set_status. rewrite Hq. reflexivity.
    - left. unfold onError, toast, set_status. rewrite Hq. reflexivity.
    - right. rewrite Hs. unfold onCancel, setStep. simpl. constructor.
    - right. rewrite Hs. unfold onCancel, setStep. simpl. constructor.
    - right. rewrite Hs. unfold onCreateNew, setStep. simpl. constructor.
    - now left.
    - now left.
    - now left. }
  destruct E as [E|E]; [now left|right].
  split; [exact E|]. now apply edge_progress with e.
Qed.

Lemma wizard_edges_witness :
  edge Config (SubmitConfig google (Js.Decimal 7 (-1))) Processing.
Proof.
  destruct (wizard_edges (SubmitConfig google (Js.Decimal 7 (-1)))
              (handle (SubmitInput Samples.form) initial)
              (reachable_handle _ _ reachable_initial)) as [E|[E _]].
  - discriminate E.
  - exact E.
Defined.

(** X16.  A processing step is rendered exactly while the wizard is on the
    processing step, and the execution it started runs on the form data that
    the wizard holds: nothing changes them while the step is there. *)
Theorem processing_runs_on_form_data s :
  reachable s ->
  (is_Some (mounted s) <-> step s = Processing)
  /\ forall p, mounted s = Some p -> vars p = vars_of (formData s).
Proof.
  intros R. destruct (reachable_consistent s R) as (Hm & Hv & _).
  split; [now symmetry|exact Hv].
Qed.

Lemma processing_runs_on_form_data_witness :
  is_Some (mounted Samples.processing_state)
  /\ Samples.vars_sent = vars_of (formData Samples.processing_state).
Proof.
  destruct (processing_runs_on_form_data Samples.processing_state
              (WizardFacts.reachable_run _ _ reachable_initial)) as [M V].
  split; [now apply M|].
  exact (V {| instance := 0; vars := Samples.vars_sent; status := Pending;
              mutation_error := None |} eq_refl).
Defined.

(** X17.  Every execution that the wizard starts carries content that passed the
    form check and exactly two parameters, the provider and the temperature
    held: the wizard never sends a model. *)
Theorem executions_are_checked s p :
  reachable s -> mounted s = Some p ->
  (10 <= Js.length (content (Api.input (vars p))))%nat
  /\ Api.model (vars p) = None
  /\ Api.execute_params (vars p)
     = [ ("provider", provider_name (provider (formData s)));
         ("temperature", Js.number_toString (temperature (formData s))) ].
Proof.
  intros R Hp. destruct (reachable_consistent s R) as (Hm & Hv & Hc & Hmod & _).
  rewrite (Hv p Hp). unfold vars_of, Api.execute_params. simpl.
  rewrite Hmod. repeat split.
  apply Hc. assert (step s = Processing) by (apply Hm; eauto). congruence.
Qed.

Lemma executions_are_checked_witness :
  Api.execute_params Samples.vars_sent
  = [("provider", "google"); ("temperature", "0.7")].
Proof.
  exact (proj2 (proj2 (executions_are_checked Samples.processing_state
           {| instance := 0; vars := Samples.vars_sent; status := Pending;
              mutation_error := None |}
           (WizardFacts.reachable_run _ _ reachable_initial) eq_refl))).
Defined.

(** X18.  "Create New Workflow" on the results step puts the wizard back as it
    started: the first step, the initial form data, no result, no processing
    step. *)
Theorem create_new_resets s :
  reachable s -> step s = Results ->
  visible (handle ClickCreateNew s) = visible initial
  /\ mounted (handle ClickCreateNew s) = None.
Proof.
  intros R Hs. destruct (reachable_consistent s R) as (_ & _ & _ & _ & Hr).
  destruct (Hr Hs) as (r & Hres & _).
  unfold handle. rewrite Hs, Hres. now split.
Qed.

Lemma create_new_resets_witness :
  visible (handle ClickCreateNew
             (handle (Settled 0 (Fulfilled Samples.approved_result))
                     Samples.processing_state))
  = visible initial.
Proof.
  exact (proj1 (create_new_resets
           (handle (Settled 0 (Fulfilled Samples.approved_result))
                   Samples.processing_state)
           (reachable_handle _ _ (WizardFacts.reachable_run _ _ reachable_initial))
           eq_refl)).
Defined.

(** X19.  What each event may do to the form data: the input form replaces the
    input and nothing else, the configuration form replaces the provider and
    the temperature and nothing else, "Create New Workflow" puts the initial
    data back; a response, "Back", "Cancel Workflow" and "Go Back" leave the
    form data as it is. *)
Theorem form_data_frame e s :
  match e with
  | SubmitInput v =>
      formData (handle e s) = formData s
      \/ formData (handle e s)
         = {| input := InputStep.onSubmit v; provider := provider (formData s);
              model := model (formData s);
              temperature := temperature (formData s) |}
  | SubmitConfig p t =>
      formData (handle e s) = formData s
      \/ formData (handle e s)
         = {| input := input (formData s); provider := p;
              model := model (formData s); temperature := t |}
  | ClickCreateNew =>
      formData (handle e s) = formData s
      \/ formData (handle e s) = initialFormData
  | _ => formData (handle e s) = formData s
  end.
Proof.
  destruct (handle_fires e s) as [->|F]; [destruct e; auto|].
  destruct F as [v Hs Hlen|Hs|p t Hs|q data Hq Hst|q t Hq Hst|Hs Hp|Hs Hp|r Hs Hres
                |r Hs Hres|n Hn|n Hn].
  - right. reflexivity.
  - unfold config_onBack, setStep. now destruct (step s).
  - right. unfold config_onNext, setStep, setFormData. simpl.
    now destruct (step s).
  - unfold onSuccess, onComplete, setStep, setResult, toast, set_status.
    rewrite Hq. destruct (success data); simpl; [now destruct (step s)|reflexivity].
  - unfold onError, toast, set_status. now rewrite Hq.
  - unfold onCancel, setStep. now destruct (step s).
  - unfold onCancel, setStep. now destruct (step s).
  - right. unfold onCreateNew, setStep. simpl. now destruct (step s).
  - reflexivity.
  - reflexivity.
  - reflexivity.
Qed.

(** X20.  The result held changes in two ways only: a successful result of the
    pending execution is stored, with the wizard moving to the results step,
    and "Create New Workflow" clears it. *)
Theorem result_changes e s :
  result (handle e s) = result s
  \/ (exists i data,
        e = Settled i (Fulfilled data) /\ success data = true
        /\ result (handle e s) = Some data /\ step (handle e s) = Results)
  \/ (e = ClickCreateNew
      /\ result (handle e s) = None /\ step (handle e s) = Input).
Proof.
  destruct (handle_fires e s) as [->|F]; [now left|].
  destruct F as [v Hs Hlen|Hs|p t Hs|q data Hq Hst|q t Hq Hst|Hs Hp|Hs Hp|r Hs Hres
                |r Hs Hres|n Hn|n Hn].
  - left. reflexivity.
  - left. unfold config_onBack, setStep. now destruct (step s).
  - left. unfold config_onNext, setStep, setFormData. simpl. now destruct (step s).
  - unfold onSuccess. destruct (success data) eqn:Hd.
    + right. left. exists (instance q), data.
      unfold onComplete, setStep, setResult, toast, set_status. rewrite Hq.
      simpl. now destruct (step s).
    + left. unfold toast, set_status. now rewrite Hq.
  - left. unfold onError, toast, set_status. now rewrite Hq.
  - left. unfold onCancel, setStep. now destruct (step s).
  - left. unfold onCancel, setStep. now destruct (step s).
  - right. right. unfold onCreateNew, setStep. simpl. now destruct (step s).
  - now left.
  - now left.
  - now left.
Qed.

(** X22.  What the processing step shows.  While the execution is pending the
    first pipeline step spins, the other three are idle and "Cancel Workflow"
    is disabled.  After a result with [success] false all four pipeline steps
    are ticked as completed, and the button is enabled.  After a rejection
    the four are idle again and the error panel shows the message of the
    error. *)
Theorem processing_view s p :
  mounted s = Some p -> status p = Pending ->
  (step_icons p = [SpinnerIcon; CircleIcon; CircleIcon; CircleIcon]
   /\ cancel_disabled p = true /\ error_panel p = None)
  /\ (forall data, success data = false ->
        exists p',
          mounted (handle (Settled (instance p) (Fulfilled data)) s) = Some p'
          /\ step_icons p' = [CheckIcon; CheckIcon; CheckIcon; CheckIcon]
          /\ cancel_disabled p' = false /\ error_panel p' = None)
  /\ (forall t,
        exists p',
          mounted (handle (Settled (instance p) (Failed t)) s) = Some p'
          /\ step_icons p' = [CircleIcon; CircleIcon; CircleIcon; CircleIcon]
          /\ cancel_disabled p' = false
          /\ error_panel p'
             = Some ("Error: " +:+ default EmptyString (thrown_message t))).
Proof.
  intros Hp Hst. split; [|split].
  - unfold step_icons, step_icon, cancel_disabled, error_panel,
      isSuccess, pending, failed. rewrite Hst. now repeat split.
  - intros data Hd. rewrite WizardFacts.handle_Settled. unfold settle.
    rewrite Hp, Nat.eqb_refl, Hst. unfold onSuccess. rewrite Hd.
    unfold toast, set_status. rewrite Hp. simpl. eexists. split; [reflexivity|].
    now repeat split.
  - intros t. rewrite WizardFacts.handle_Settled. unfold settle.
    rewrite Hp, Nat.eqb_refl, Hst. unfold onError, toast, set_status.
    rewrite Hp. simpl. eexists. split; [reflexivity|]. now repeat split.
Qed.

Lemma processing_view_witness :
  exists p',
    mounted (handle (Settled 0 (Fulfilled (Samples.rejected_with None)))
                    Samples.processing_state) = Some p'
    /\ step_icons p' = [CheckIcon; CheckIcon; CheckIcon; CheckIcon].
Proof.
  destruct (proj1 (proj2 (processing_view Samples.processing_state
              {| instance := 0; vars := Samples.vars_sent; status := Pending;
                 mutation_error := None |} eq_refl eq_refl))
              (Samples.rejected_with None) eq_refl) as (p' & H1 & H2 & _).
  exists p'. now split.
Defined.

Lemma or_else_truthy o d : Js.truthy d = true -> Js.truthy (Js.or_else o d) = true.
Proof.
  intros H. unfold Js.or_else. destruct o as [x|]; [|exact H].
  now destruct (Js.truthy x) eqn:E.
Qed.

(** X23.  The toasts of the wizard.  An event adds at most one toast, and
    a toast is never blank.  A toast comes from a response or from a write to
    the clipboard that is done, and from nothing else: no click shows one by
    itself.  Every response that reaches the pending processing step gives
    one: a result with [success] true the success toast, every other outcome
    an error toast with the message received or, when that is missing or
    empty, the step's own text.  Every write to the clipboard that is done
    gives ["Copied to clipboard!"], whatever the wizard shows by then. *)
Theorem toasts_of_events e s :
  (toasts (handle e s) = toasts s
   \/ exists t, toasts (handle e s) = toasts s ++ [t]
        /\ Js.truthy (toast_text t) = true
        /\ ((exists i o, e = Settled i o) \/ e = ClipboardSettled true))
  /\ (forall q o,
        mounted s = Some q -> status q = Pending ->
        exists t,
          toasts (handle (Settled (instance q) o) s) = toasts s ++ [t]
          /\ t = match o with
                 | Fulfilled data =>
                     if success data
                     then ToastSuccess "Workflow completed successfully!"
                     else ToastError (Js.or_else (error data) "Workflow failed")
                 | Failed x =>
                     ToastError (Js.or_else (thrown_message x)
                                            "Failed to execute workflow")
                 end)
  /\ (copying s <> 0%nat ->
        toasts (handle (ClipboardSettled true) s)
        = toasts s ++ [ToastSuccess "Copied to clipboard!"]).
Proof.
  assert (P1 : forall q data, mounted s = Some q ->
            toasts (onSuccess data (set_status Succeeded None s))
            = toasts s ++
                [if success data
                 then ToastSuccess "Workflow completed successfully!"
                 else ToastError (Js.or_else (error data) "Workflow failed")]).
  { intros q data Hq.
    unfold onSuccess, onComplete, setStep, setResult, toast, set_status.
    rewrite Hq. destruct (success data); simpl; [|reflexivity].
    now destruct (step s). }
  assert (P2 : forall q x, mounted s = Some q ->
            toasts (onError x (set_status Errored (Some x) s))
            = toasts s ++
                [ToastError (Js.or_else (thrown_message x)
                                        "Failed to execute workflow")]).
  { intros q x Hq. unfold onError, toast, set_status. now rewrite Hq. }
  split; [|split].
  - destruct (handle_fires e s) as [->|F]; [now left|].
    destruct F as [v Hs Hlen|Hs|p t Hs|q data Hq Hst|q t Hq Hst|Hs Hp|Hs Hp|r Hs Hres
                  |r Hs Hres|n Hn|n Hn].
    + left. reflexivity.
    + left. unfold config_onBack, setStep. now destruct (step s).
    + left. unfold config_onNext, setStep, setFormData. simpl. now destruct (step s).
    + right. eexists. split; [exact (P1 q data Hq)|]. split; [|left; eauto].
      destruct (success data); [reflexivity|]. now apply or_else_truthy.
    + right. eexists. split; [exact (P2 q t Hq)|]. split; [|left; eauto].
      now apply or_else_truthy.
    + left. unfold onCancel, setStep. now destruct (step s).
    + left. unfold onCancel, setStep. now destruct (step s).
    + left. unfold onCreateNew, setStep. simpl. now destruct (step s).
    + left. reflexivity.
    + right. eexists. split; [reflexivity|]. split; [reflexivity|now right].
    + left. reflexivity.
  - intros q o Hq Hst. rewrite WizardFacts.handle_Settled. unfold settle.
    rewrite Hq, Nat.eqb_refl, Hst. destruct o as [data|x]; eexists.
    + split; [exact (P1 q data Hq)|reflexivity].
    + split; [exact (P2 q x Hq)|reflexivity].
  - intros Hc.
    assert (E : handle (ClipboardSettled true) s = clipboard_settled true s)
      by (unfold handle; now destruct (step s)).
    rewrite E. unfold clipboard_settled.
    destruct (copying s) as [|n]; [congruence|reflexivity].
Qed.

Lemma toasts_of_events_witness :
  fst (Api.mutate Samples.vars_sent Samples.offline)
  = Api.Rejected (Api.ThrownAPI (Api.mkError "Failed to fetch" 0 None))
  /\ exists t,
       toasts (handle (Settled 0 (Failed (Api.ThrownAPI
                         (Api.mkError "Failed to fetch" 0 None))))
                      Samples.processing_state) = [t]
       /\ t = ToastError "Failed to fetch".
Proof.
  split; [reflexivity|].
  exact (proj1 (proj2 (toasts_of_events ClickBack Samples.processing_state))
           {| instance := 0; vars := Samples.vars_sent; status := Pending;
              mutation_error := None |}
           (Failed (Api.ThrownAPI (Api.mkError "Failed to fetch" 0 None)))
           eq_refl eq_refl).
Defined.

(** X24.  While the execution is pending, nothing the user does changes the
    wizard: every form and every button of it is off screen or disabled, and
    only the response moves it on. *)
Theorem pending_lock e s :
  reachable s -> isPending s = true -> user_event e = true -> handle e s = s.
Proof.
  intros R P U. destruct (reachable_consistent s R) as (Hm & _).
  unfold isPending in P. destruct (mounted s) as [q|] eqn:Hq; [|discriminate].
  assert (Hs : step s = Processing) by (apply Hm; eauto).
  unfold handle, isPending, isError. rewrite Hs, Hq.
  destruct e; try discriminate; try reflexivity;
    now destruct (status q).
Qed.

Lemma pending_lock_witness :
  handle ClickCancel Samples.processing_state = Samples.processing_state.
Proof.
  exact (pending_lock ClickCancel Samples.processing_state
           (WizardFacts.reachable_run _ _ reachable_initial) eq_refl eq_refl).
Defined.

(** X25.  The wizard is never stuck: in every state it can reach either an
    execution is pending or some action of the user takes it to another
    step. *)
Theorem never_stuck s :
  reachable s ->
  isPending s = true
  \/ exists e, user_event e = true /\ step (handle e s) <> step s.
Proof.
  intros R. destruct (reachable_consistent s R) as (_ & _ & _ & _ & Hr).
  destruct (step s) eqn:Hs.
  - right. exists (SubmitInput Samples.form). split; [reflexivity|].
    unfold handle. rewrite Hs. simpl. discriminate.
  - right. exists ClickBack. split; [reflexivity|].
    unfold handle. rewrite Hs. unfold config_onBack, setStep. rewrite ?Hs.
    simpl. discriminate.
  - destruct (isPending s) eqn:P; [now left|].
    right. exists ClickCancel. split; [reflexivity|].
    unfold handle. rewrite Hs, P. unfold onCancel, setStep. rewrite ?Hs.
    simpl. discriminate.
  - right. exists ClickCreateNew. split; [reflexivity|].
    destruct (Hr Hs) as (r & Hres & _).
    unfold handle. rewrite Hs, Hres. unfold onCreateNew, setStep. simpl.
    discriminate.
Qed.

Lemma never_stuck_witness :
  isPending initial = true
  \/ exists e, user_event e = true /\ step (handle e initial) <> step initial.
Proof. exact (never_stuck initial reachable_initial). Defined.

End FlowFacts.
